(** * jsapi: the Go binding layer of an embedded JavaScript engine

    A shallow embedding of [jsapi.go]: the value caster ([cast]), function
    bindings ([NewFunc], [Func.call], [Func.Call]), property proxies
    ([prop.get], [prop.set]), the error sink ([setError], [getError]), the
    execution context ([NewContext], [Destroy], [Exec], [Eval], ...) and the
    callbacks the engine invokes ([callback], [reporter], [getprop],
    [setprop]).

    Go's packages [reflect] and [encoding/json] and the C engine behind cgo
    are not part of the program: they are taken as interfaces (type classes)
    and the program is written over them.  Panics are explicit: a
    computation either returns or panics with a payload. *)

From Stdlib Require Import ZArith Lia Ascii.
From stdpp Require Import base option list functions gmap strings pretty.

Local Open Scope string_scope.

(** ** Panics *)

(** A Go computation returns a value or panics.  A panic value is kept as
    its [%v] rendering, which is all [Func.Call] observes of it: by the
    language definition the value [recover()] yields while panicking is
    never nil. *)
Inductive outcome (A : Type) : Type :=
| Return (a : A)
| Panic (r : string).
Arguments Return {A} a.
Arguments Panic {A} r.

#[export] Instance outcome_ret : MRet outcome := fun A a => Return a.
#[export] Instance outcome_bind : MBind outcome := fun A B k m =>
  match m with
  | Return a => k a
  | Panic r => Panic r
  end.

(** ** Errors *)

Record ErrorReport := {
  Filename : string;
  Line : N;
  Message : string
}.

(** A non-nil value of Go's interface type [error].  The nil interface is
    [None] of [option error].  An interface holding a [*ErrorReport] is
    non-nil whatever the pointer is: [ReportError None] is the interface
    that holds the nil pointer. *)
Inductive error :=
| ErrorString (msg : string)             (* fmt.Errorf and library errors *)
| ReportError (p : option ErrorReport).  (* dynamic type *ErrorReport *)

(** [func (err *ErrorReport) Error() string] *)
Definition ErrorReport_Error (err : ErrorReport) : string :=
  Filename err +:+ ":" +:+ pretty (Line err) +:+ " " +:+ Message err.

(** [err.Error()] through the interface; the method reads [err.Filename],
    a nil pointer dereference when the pointer is nil. *)
Definition Error (e : error) : outcome string :=
  match e with
  | ErrorString msg => Return msg
  | ReportError (Some r) => Return (ErrorReport_Error r)
  | ReportError None =>
      Panic "runtime error: invalid memory address or nil pointer dereference"
  end.

(** The assignment [err = cx.getError(filename)] of a [*ErrorReport] to a
    variable of interface type [error]. *)
Definition error_of_ptr (p : option ErrorReport) : option error :=
  Some (ReportError p).

(** ** Package reflect *)

Module reflect.

Inductive Kind :=
| Invalid | Bool | Int | Int8 | Int16 | Int32 | Int64
| Uint | Uint8 | Uint16 | Uint32 | Uint64 | Uintptr
| Float32 | Float64 | Complex64 | Complex128
| Array | Chan | Func | Interface | Map | Ptr | Slice | String | Struct
| UnsafePointer.

#[global] Instance Kind_eq_dec : EqDecision Kind.
Proof. solve_decision. Defined.

(** [func (k Kind) String() string] *)
Definition Kind_String (k : Kind) : string :=
  match k with
  | Invalid => "invalid" | Bool => "bool" | Int => "int" | Int8 => "int8"
  | Int16 => "int16" | Int32 => "int32" | Int64 => "int64"
  | Uint => "uint" | Uint8 => "uint8" | Uint16 => "uint16"
  | Uint32 => "uint32" | Uint64 => "uint64" | Uintptr => "uintptr"
  | Float32 => "float32" | Float64 => "float64"
  | Complex64 => "complex64" | Complex128 => "complex128"
  | Array => "array" | Chan => "chan" | Func => "func"
  | Interface => "interface" | Map => "map" | Ptr => "ptr"
  | Slice => "slice" | String => "string" | Struct => "struct"
  | UnsafePointer => "unsafe.Pointer"
  end.

(** [reflect.StructField], as far as [defineObject] reads it. *)
Record StructField (T : Type) := {
  Name : string;
  Type_ : T
}.
Arguments Name {T} _.
Arguments Type_ {T} _.

(** A reflected struct field ([ov.Field(i)]): the place that holds the
    field and the flags [reflect] keeps with it. *)
Record FieldValue := {
  loc : positive;        (* where the field lives in host memory *)
  addressable : bool;    (* reached through a pointer *)
  readonly : bool        (* obtained from an unexported field *)
}.

(** The part of package [reflect] the program calls. *)
Class Reflection := {
  (** [reflect.Type] *)
  rtype : Type;
  (** a [reflect.Value] that holds a value; also a non-nil [interface{}] *)
  rvalue : Type;
  Type_Kind : rtype -> Kind;
  Type_String : rtype -> string;
  AssignableTo : rtype -> rtype -> bool;
  ConvertibleTo : rtype -> rtype -> bool;
  (** [t.Elem()]; [None] where it panics (no element type) *)
  Type_Elem : rtype -> option rtype;
  (** the parameter types of a func type, [t.In(0)], ..., [t.In(NumIn-1)] *)
  Type_Ins : rtype -> list rtype;
  IsVariadic : rtype -> bool;
  (** the fields of a struct type, [t.Field(0)], ... *)
  Type_Fields : rtype -> list (StructField rtype);
  (** [v.Type()] of a value that holds one *)
  Value_Type : rvalue -> rtype;
  (** [v.Elem()] of a pointer; [None] when the pointer is nil *)
  Value_Elem : rvalue -> option rvalue;
  (** [v.Convert(t)], called when [ConvertibleTo] holds *)
  Value_Convert : rvalue -> rtype -> rvalue;
  (** [v.Interface()] of a value that may be read *)
  Value_Interface : rvalue -> option rvalue;
  (** [v.Field(i)] of a struct value *)
  Value_Field : rvalue -> nat -> FieldValue;
  (** what the function [v] does when it is run on arguments: the values it
      returns, or the value it panics with *)
  Value_run : rvalue -> list rvalue -> outcome (list rvalue);
  (** the value [outargs] of type [[]interface{}] with these elements *)
  SliceOf : list (option rvalue) -> rvalue;
  (** laws of the package: a converted value has the target type, and every
      type is assignable to itself *)
  Convert_Type : forall v t, Value_Type (Value_Convert v t) = t;
  AssignableTo_refl : forall t, AssignableTo t t = true
}.

End reflect.

(** ** Package encoding/json *)

Module json.

(** The text of a JSON array whose elements have the given encodings; the
    first element that cannot be encoded fails the whole array. *)
Fixpoint elements (encs : list (error + string)) : error + list string :=
  match encs with
  | [] => inr []
  | inl e :: _ => inl e
  | inr s :: rest =>
      match elements rest with
      | inl e => inl e
      | inr ss => inr (s :: ss)
      end
  end.

Fixpoint join (sep : string) (ss : list string) : string :=
  match ss with
  | [] => ""
  | [s] => s
  | s :: rest => s +:+ sep +:+ join sep rest
  end.

Definition array (encs : list (error + string)) : error + string :=
  match elements encs with
  | inl e => inl e
  | inr ss => inr ("[" +:+ join "," ss +:+ "]")
  end.

(** The part of package [encoding/json] the program calls. *)
Class JSON `{reflect.Reflection} := {
  (** [json.Unmarshal(data, &x)] with [x] of type [interface{}] *)
  Unmarshal : string -> error + option reflect.rvalue;
  (** [json.Unmarshal(data, &inargs)] with [inargs] of type [[]interface{}] *)
  Unmarshal_slice : string -> error + list (option reflect.rvalue);
  (** [json.Marshal(x)] *)
  Marshal : option reflect.rvalue -> error + string;
  (** law of the package: a slice encodes as the JSON array of its
      elements' encodings *)
  Marshal_SliceOf : forall xs,
    Marshal (Some (reflect.SliceOf xs)) = array (map Marshal xs)
}.

End json.

(** ** The value caster and function bindings *)

Section Binding.
Context `{J : json.JSON}.
Import reflect.

(** A [reflect.Value]: [None] is the zero Value, which holds nothing. *)
Definition Value : Type := option rvalue.

(** [reflect.ValueOf(x)]: the zero Value for a nil interface. *)
Definition ValueOf (x : option rvalue) : Value := x.

(** [v.Type()] *)
Definition Type_of (v : Value) : outcome rtype :=
  match v with
  | None => Panic "reflect: call of reflect.Value.Type on zero Value"
  | Some r => Return (Value_Type r)
  end.

(** [reflect.Indirect(v)]: the pointed-to value of a pointer (the zero Value
    for a nil pointer), [v] itself otherwise. *)
Definition Indirect (v : Value) : Value :=
  match v with
  | None => None
  | Some r =>
      if decide (Type_Kind (Value_Type r) = Ptr) then Value_Elem r else v
  end.


(** [v.Convert(t)] *)
Definition Convert (v : Value) (t : rtype) : outcome Value :=
  match v with
  | None => Panic "reflect: call of reflect.Value.Convert on zero Value"
  | Some r => Return (Some (Value_Convert r t))
  end.

Definition cannot_cast (a b : Kind) : error :=
  ErrorString ("cannot cast " +:+ Kind_String a +:+ " to " +:+ Kind_String b).

(** [func cast(v reflect.Value, t reflect.Type) (reflect.Value, error)] *)
Definition cast (v : Value) (t : rtype) : outcome (Value * option error) :=
  vt ← Type_of v;
  let v := if bool_decide (Type_Kind vt = Ptr) && negb (bool_decide (Type_Kind t = Ptr))
           then Indirect v else v in
  vt ← Type_of v;
  if negb (AssignableTo vt t) then
    vt ← Type_of v;
    if negb (ConvertibleTo vt t) then
      vt ← Type_of v;
      Return (v, Some (cannot_cast (Type_Kind vt) (Type_Kind t)))
    else
      v ← Convert v t;
      Return (v, None)
  else Return (v, None).

(** [type Func struct] *)
Record Func := {
  Func_Name : string;
  Func_v : Value;
  Func_t : rtype
}.

(** [t.NumIn()] and [t.In(i)] of a func type; [In] panics out of range. *)
Definition NumIn (t : rtype) : Z := Z.of_nat (length (Type_Ins t)).

Definition In (t : rtype) (i : Z) : outcome rtype :=
  if decide (0 <= i < NumIn t)%Z then
    match Type_Ins t !! Z.to_nat i with
    | Some ti => Return ti
    | None => Panic "reflect: Func index out of bounds"
    end
  else Panic "reflect: Func index out of bounds".

(** [t.Elem()] *)
Definition Elem (t : rtype) : outcome rtype :=
  match Type_Elem t with
  | Some e => Return e
  | None => Panic "reflect: Elem of invalid type"
  end.

(** The kinds [NewFunc] accepts for a parameter. *)
Definition acceptable (k : Kind) : bool :=
  match k with
  | Bool | Int | Int8 | Int16 | Int32 | Int64
  | Uint | Uint8 | Uint16 | Uint32 | Uint64
  | Float32 | Float64 | Interface | Map | Slice | String => true
  | _ => false
  end.

(** The loop of [NewFunc] over the parameter types. *)
Fixpoint check_inargs (ins : list rtype) : outcome unit :=
  match ins with
  | [] => Return ()
  | ti :: rest =>
      if acceptable (Type_Kind ti) then check_inargs rest
      else Panic "X is not a valid argument type for javascript interop"
  end.

(** [func NewFunc(fun interface{}) *Func] *)
Definition NewFunc (fun_ : option rvalue) : outcome Func :=
  let v := ValueOf fun_ in
  match v with
  | None => Panic "invalid function type"
  | Some r =>
      let t := Value_Type r in
      if negb (bool_decide (Type_Kind t = reflect.Func)) then
        Panic "X is not a valid function type"
      else
        _ ← check_inargs (Type_Ins t);
        Return {| Func_Name := "[anon]"; Func_v := v; Func_t := t |}
  end.

(** [reflect.Value.Call]: the checks the package makes on the arguments
    before the function runs. *)
Fixpoint valid_args (ins : list Value) : option (list rvalue) :=
  match ins with
  | [] => Some []
  | None :: _ => None
  | Some r :: rest => cons r <$> valid_args rest
  end.

Fixpoint check_fixed (targs : list rtype) (xs : list rvalue) : outcome unit :=
  match targs, xs with
  | targ :: targs, x :: xs =>
      let xt := Value_Type x in
      if negb (AssignableTo xt targ) then
        Panic ("reflect: Call using " +:+ Type_String xt +:+ " as type "
               +:+ Type_String targ)
      else check_fixed targs xs
  | _, _ => Return ()
  end.

Fixpoint check_rest (elem : rtype) (xs : list rvalue) : outcome unit :=
  match xs with
  | [] => Return ()
  | x :: xs =>
      let xt := Value_Type x in
      if negb (AssignableTo xt elem) then
        Panic ("reflect: cannot use " +:+ Type_String xt +:+ " as type "
               +:+ Type_String elem +:+ " in Call")
      else check_rest elem xs
  end.

Definition Value_Call (v : Value) (ins : list Value) : outcome (list rvalue) :=
  match v with
  | None => Panic "reflect: call of reflect.Value.Call on zero Value"
  | Some fn =>
      let t := Value_Type fn in
      let n := NumIn t in
      let n := if IsVariadic t then (n - 1)%Z else n in
      let len := Z.of_nat (length ins) in
      if decide (len < n)%Z then
        Panic "reflect: Call with too few input arguments"
      else if negb (IsVariadic t) && bool_decide (len > n)%Z then
        Panic "reflect: Call with too many input arguments"
      else
        match valid_args ins with
        | None => Panic "reflect: Call using zero Value argument"
        | Some xs =>
            _ ← check_fixed (take (Z.to_nat n) (Type_Ins t)) xs;
            _ ← (if IsVariadic t then
                   tn ← In t n;
                   elem ← Elem tn;
                   check_rest elem (drop (Z.to_nat n) xs)
                 else Return ());
            Value_run fn xs
        end
  end.

(** [string(b), err] after [b, err := json.Marshal(x)] *)
Definition marshalled (r : error + string) : string * option error :=
  match r with
  | inl err => ("", Some err)
  | inr b => (b, None)
  end.

Definition invalid_number_of_arguments (expected got : Z) : error :=
  ErrorString ("Invalid number of arguments: expected " +:+ pretty expected
               +:+ " got " +:+ pretty got).

(** The loop of [Func.call] that casts argument [i], [i+1], ... to its
    parameter type; it leaves the function at the first failing cast. *)
Fixpoint cast_inargs (t : rtype) (i : Z) (inargs : list (option rvalue))
  : outcome (error + list Value) :=
  match inargs with
  | [] => Return (inr [])
  | x :: rest =>
      let v := ValueOf x in
      ti ← (if IsVariadic t && bool_decide (i >= NumIn t - 1)%Z then
              tl ← In t (NumIn t - 1)%Z;
              Elem tl
            else In t i);
      '(v, err) ← cast v ti;
      match err with
      | Some e => Return (inl e)
      | None =>
          r ← cast_inargs t (i + 1)%Z rest;
          match r with
          | inl e => Return (inl e)
          | inr invals => Return (inr (v :: invals))
          end
      end
  end.

(** The type the loop of [Func.call] casts argument [k] to. *)
Definition param_type (t : rtype) (k : Z) : outcome rtype :=
  if IsVariadic t && bool_decide (k >= NumIn t - 1)%Z then
    tl ← In t (NumIn t - 1)%Z;
    Elem tl
  else In t k.

(** The [switch len(outvals)] of [Func.call]. *)
Definition encode_outvals (outvals : list rvalue) : string * option error :=
  match outvals with
  | [] => ("", None)
  | [o] => marshalled (json.Marshal (Value_Interface o))
  | _ => marshalled (json.Marshal (Some (SliceOf (map Value_Interface outvals))))
  end.

(** [func (f *Func) call(in string) (out string, err error)] *)
Definition call (f : Func) (in_ : string) : outcome (string * option error) :=
  match json.Unmarshal_slice in_ with
  | inl err => Return ("", Some err)
  | inr inargs =>
      let len := Z.of_nat (length inargs) in
      if negb (bool_decide (len = NumIn (Func_t f)))
         && negb (IsVariadic (Func_t f)) then
        Return ("", Some (invalid_number_of_arguments (NumIn (Func_t f)) len))
      else
        r ← cast_inargs (Func_t f) 0 inargs;
        match r with
        | inl err => Return ("", Some err)
        | inr invals =>
            outvals ← Value_Call (Func_v f) invals;
            Return (encode_outvals outvals)
        end
  end.

(** [func (f *Func) Call(in string) (out string, err error)]: the deferred
    function turns a panic of [f.call] into an error. *)
Definition Call (f : Func) (in_ : string) : string * option error :=
  match call f in_ with
  | Return (out, err) => (out, err)
  | Panic r => ("", Some (ErrorString (Func_Name f +:+ ": " +:+ r)))
  end.

(** ** Property proxies *)

(** Host memory: what each struct field holds. *)
Definition Mem : Type := positive -> rvalue.

(** [type prop struct] *)
Record prop := {
  prop_name : string;
  prop_v : FieldValue;
  prop_t : rtype
}.

(** [v.CanSet()] *)
Definition CanSet (v : FieldValue) : bool :=
  addressable v && negb (readonly v).

(** [v.Interface()] of a field *)
Definition Interface (m : Mem) (v : FieldValue) : outcome (option rvalue) :=
  if readonly v then
    Panic "reflect.Value.Interface: cannot return value obtained from unexported field or method"
  else Return (Value_Interface (m (loc v))).

(** [v.Set(x)] of a field of type [t] *)
Definition Set_ (m : Mem) (v : FieldValue) (t : rtype) (x : Value) : outcome Mem :=
  if readonly v then
    Panic "reflect: reflect.Value.Set using value obtained using unexported field"
  else if negb (addressable v) then
    Panic "reflect: reflect.Value.Set using unaddressable value"
  else
    match x with
    | None => Panic "reflect: call of reflect.Value.Set on zero Value"
    | Some r =>
        if AssignableTo (Value_Type r) t then Return (<[loc v := r]> m)
        else Panic ("reflect.Set: value of type " +:+ Type_String (Value_Type r)
                    +:+ " is not assignable to type " +:+ Type_String t)
    end.

(** [func (p *prop) get() (string, error)] *)
Definition get (m : Mem) (p : prop) : outcome (string * option error) :=
  x ← Interface m (prop_v p);
  Return (marshalled (json.Marshal x)).

Definition not_settable (name : string) : error :=
  ErrorString ("property " +:+ name +:+ " is not settable").

(** [func (p *prop) set(injson string) (string, error)]; the error of
    [cast] is assigned to [err] and not looked at. *)
Definition set (m : Mem) (p : prop) (injson : string)
  : outcome ((string * option error) * Mem) :=
  match json.Unmarshal injson with
  | inl err => Return (("", Some err), m)
  | inr x =>
      let xv := ValueOf x in
      '(xv, err) ← cast xv (prop_t p);
      if negb (CanSet (prop_v p)) then
        Return (("", Some (not_settable (prop_name p))), m)
      else
        m' ← Set_ m (prop_v p) (prop_t p) xv;
        r ← get m' p;
        Return (r, m')
  end.

End Binding.

(** ** The engine and the host system *)

(** [C.JSAPI_OK] and any other status a primitive returns. *)
Inductive status := JSAPI_OK | JSAPI_FAIL.

#[export] Instance status_eq_dec : EqDecision status.
Proof. solve_decision. Defined.

(** What the engine does while it evaluates a script: it calls back into
    the exported Go functions any number of times, looks at what they
    answer, and in the end returns. *)
Inductive Upcalls (E R : Type) : Type :=
| Done (r : R) (e : E)
| Reporter (c : N) (filename : string) (lineno : N) (msg : string)
    (k : Upcalls E R)
| Callback (c id : N) (name args : string) (k : Z * string -> Upcalls E R)
| Getprop (c id : N) (name : string) (k : Z * string -> Upcalls E R)
| Setprop (c id : N) (name val : string) (k : Z * string -> Upcalls E R).
Arguments Done {E R} r e.
Arguments Reporter {E R} c filename lineno msg k.
Arguments Callback {E R} c id name args k.
Arguments Getprop {E R} c id name k.
Arguments Setprop {E R} c id name val k.

(** The primitives of [lib/js.hpp].  Pointers into C memory
    ([*C.JSAPIContext], [*C.JSObject]) are addresses, 0 for NULL. *)
Class Engine := {
  EngineState : Type;
  JSAPI_NewContext : EngineState -> N * EngineState;
  JSAPI_DestroyContext : N -> EngineState -> EngineState;
  JSAPI_Eval : N -> string -> string -> EngineState
               -> Upcalls EngineState status;
  JSAPI_EvalJSON : N -> string -> string -> EngineState
                   -> Upcalls EngineState (status * string);
  JSAPI_DefineObject : N -> N -> string -> EngineState -> N * EngineState;
  JSAPI_DefineProperty : N -> N -> string -> EngineState
                         -> status * EngineState;
  JSAPI_DefineFunction : N -> N -> string -> EngineState
                         -> status * EngineState;
  (** the field [c.o]: the global object of a context *)
  context_o : N -> N
}.

(** Packages [os] and [io/ioutil]: a reader is what [ioutil.ReadAll] gets
    out of it. *)
Class Files := {
  Reader : Type;
  ReadAll : Reader -> error + string;
  Open : string -> error + Reader
}.

(** ** Contexts *)

(** Go pointers to [Context] and [Object] values: places in a heap. *)
Abbreviation addr := positive (only parsing).

Section Contexts.
Context `{J : json.JSON} `{En : Engine} `{Fi : Files}.


(** [type Object struct] *)
Record Object := {
  Object_id : N;
  Object_cx : addr;
  Object_funcs : gmap string Func;
  Object_props : gmap string prop;
  Object_proxy : option reflect.rvalue
}.

(** [type Context struct]; [objs] holds pointers to objects, [errs] is nil
    until the first report. *)
Record Context := {
  ptr : N;
  objs : gmap N addr;
  funcs : gmap string Func;
  Valid : bool;
  errs : option (gmap string ErrorReport)
}.

(** The state of the process: the package variable [contexts], the heap of
    [Context] and [Object] values, the fields of the proxied structs, and
    the engine. *)
Record World := {
  contexts : gmap N addr;
  heap : gmap addr Context;
  objects : gmap addr Object;
  mem : Mem;
  engine : EngineState
}.

(** A computation on the process: it ends normally or in a panic that
    nothing recovers, and either way leaves a state behind. *)
Inductive result (A : Type) : Type :=
| Ok (a : A) (w : World)
| Fatal (r : string) (w : World).
Arguments Ok {A} a w.
Arguments Fatal {A} r w.

Definition M (A : Type) : Type := World -> result A.

#[export] Instance M_ret : MRet M := fun A a w => Ok a w.
#[export] Instance M_bind : MBind M := fun A B k m w =>
  match m w with
  | Ok a w' => k a w'
  | Fatal r w' => Fatal r w'
  end.

Definition panic {A} (r : string) : M A := fun w => Fatal r w.

(** What a computation returned or panicked with, and the state it left. *)
Definition returned {A} (r : result A) : outcome A :=
  match r with
  | Ok a _ => Return a
  | Fatal m _ => Panic m
  end.

Definition state {A} (r : result A) : World :=
  match r with
  | Ok _ w | Fatal _ w => w
  end.

(** A pure computation inside the process. *)
Definition lift {A} (o : outcome A) : M A := fun w =>
  match o with
  | Return a => Ok a w
  | Panic r => Fatal r w
  end.

Definition nil_dereference : string :=
  "runtime error: invalid memory address or nil pointer dereference".

(** [*cx] and [*cx = c] *)
Definition load (cx : addr) : M Context := fun w =>
  match heap w !! cx with
  | Some c => Ok c w
  | None => Fatal nil_dereference w
  end.

Definition store (cx : addr) (c : Context) : M unit := fun w =>
  Ok () {| contexts := contexts w; heap := <[cx := c]> (heap w);
           objects := objects w; mem := mem w; engine := engine w |}.

Definition load_object (o : addr) : M Object := fun w =>
  match objects w !! o with
  | Some ob => Ok ob w
  | None => Fatal nil_dereference w
  end.

Definition store_object (o : addr) (ob : Object) : M unit := fun w =>
  Ok () {| contexts := contexts w; heap := heap w;
           objects := <[o := ob]> (objects w); mem := mem w;
           engine := engine w |}.

(** [contexts[p] = cx] *)
Definition register (p : N) (cx : addr) : M unit := fun w =>
  Ok () {| contexts := <[p := cx]> (contexts w); heap := heap w;
           objects := objects w; mem := mem w; engine := engine w |}.

(** A call of an engine primitive that returns at once. *)
Definition primitive {A} (f : EngineState -> A * EngineState) : M A := fun w =>
  let '(a, e) := f (engine w) in
  Ok a {| contexts := contexts w; heap := heap w; objects := objects w;
          mem := mem w; engine := e |}.

(** [func (jsapi *api) do(callback func())]: the callback runs to its end
    on the engine's thread, in place or through the channel, before [do]
    returns. *)
Definition jsapi_do {A} (callback : M A) : M A := callback.

(** [func (cx *Context) do(fn func())] *)
Definition do {A} (cx : addr) (fn : M A) : M A :=
  c ← load cx;
  if negb (Valid c) then panic "attempt to do a destroyed Context"
  else
    c ← load cx;
    if negb (Valid c) then panic "context destroyed while waiting for do"
    else jsapi_do fn.

(** The value [do] panics with on an invalidated context. *)
Definition destroyed : string := "attempt to do a destroyed Context".

(** [func NewContext() *Context]; the finalizer that [runtime.SetFinalizer]
    attaches is left out: [Destroy] is called by the host. *)
Definition NewContext : M addr := fun w =>
  let cx : addr := fresh (dom (heap w)) in
  jsapi_do (
    p ← primitive JSAPI_NewContext;
    _ ← store cx {| ptr := p; objs := ∅; funcs := ∅; Valid := true;
                    errs := None |};
    _ ← register p cx;
    mret cx) w.

(** [func (cx *Context) Destroy()] *)
Definition Destroy (cx : addr) : M unit :=
  c ← load cx;
  if Valid c then
    do cx (
      c ← load cx;
      _ ← primitive (fun e => ((), JSAPI_DestroyContext (ptr c) e));
      store cx {| ptr := 0; objs := objs c; funcs := funcs c;
                  Valid := false; errs := errs c |})
  else mret ().

(** *** The error sink *)

Definition with_errs (c : Context) (e : option (gmap string ErrorReport))
  : Context :=
  {| ptr := ptr c; objs := objs c; funcs := funcs c; Valid := Valid c;
     errs := e |}.

(** [cx.errs[k]] and [delete(cx.errs, k)]; a nil map reads as an empty one
    and deleting from it does nothing. *)
Definition errs_lookup (e : option (gmap string ErrorReport)) (k : string)
  : option ErrorReport :=
  match e with
  | None => None
  | Some m => m !! k
  end.

Definition errs_delete (k : string) (e : option (gmap string ErrorReport))
  : option (gmap string ErrorReport) :=
  match e with
  | None => None
  | Some m => Some (delete k m)
  end.

(** [func (cx *Context) setError(filename string, line uint, message string)] *)
Definition setError (cx : addr) (filename : string) (line : N)
  (message : string) : M unit :=
  c ← load cx;
  let m := match errs c with
           | None => ∅
           | Some m => m
           end in
  store cx (with_errs c (Some (<[filename :=
    {| Filename := filename; Line := line; Message := message |}]> m))).

(** [func (cx *Context) getError(filename string) *ErrorReport]; the result
    is the pointer, nil when no report is found. *)
Definition getError (cx : addr) (filename : string) : M (option ErrorReport) :=
  c ← load cx;
  match errs_lookup (errs c) filename with
  | Some err =>
      _ ← store cx (with_errs c (errs_delete filename (errs c)));
      mret (Some err)
  | None =>
      match errs_lookup (errs c) "__fatal__" with
      | Some err =>
          _ ← store cx (with_errs c (errs_delete filename (errs c)));
          mret (Some err)
      | None => mret None
      end
  end.

(** *** The exported callbacks *)

Definition get_contexts : M (gmap N addr) := fun w => Ok (contexts w) w.
Definition get_mem : M Mem := fun w => Ok (mem w) w.
Definition put_mem (m : Mem) : M unit := fun w =>
  Ok () {| contexts := contexts w; heap := heap w; objects := objects w;
           mem := m; engine := engine w |}.

(** The end of the three callbacks: [*out] and the returned flag. *)
Definition answer (r : string * option error) : M (Z * string) :=
  match r with
  | (_, Some err) => s ← lift (Error err); mret (0%Z, s)
  | (outjson, None) => mret (1%Z, outjson)
  end.

(** [func callback(c, id, cname, args, argn, out) C.int]; what goes to
    standard output is left out. *)
Definition callback (c id : N) (name json : string) : M (Z * string) :=
  cxs ← get_contexts;
  match cxs !! c with
  | None => mret (0%Z, "attempt to use context after destroyed")
  | Some cxp =>
      cx ← load cxp;
      if decide (id = context_o c) then
        match funcs cx !! name with
        | None =>
            mret (0%Z, "attempt to use global func that doesn't appear to exist")
        | Some fn => answer (Call fn json)
        end
      else
        match objs cx !! id with
        | None =>
            mret (0%Z, "attempt to use global object that doesn't appear to exist")
        | Some op =>
            o ← load_object op;
            match Object_funcs o !! name with
            | None =>
                mret (0%Z, "attempt to use func that doesn't appear to exist")
            | Some fn => answer (Call fn json)
            end
        end
  end.

(** [func reporter(c, cfilename, lineno, cmsg)] *)
Definition reporter (c : N) (filename : string) (lineno : N) (msg : string)
  : M unit :=
  cxs ← get_contexts;
  match cxs !! c with
  | None => mret ()
  | Some cxp => setError cxp filename lineno msg
  end.

(** [func getprop(c, id, cname, out) C.int] *)
Definition getprop (c id : N) (name : string) : M (Z * string) :=
  cxs ← get_contexts;
  match cxs !! c with
  | None => mret (0%Z, "attempt to use context after destroyed")
  | Some cxp =>
      cx ← load cxp;
      match objs cx !! id with
      | None =>
          mret (0%Z, "attempt to use object that doesn't appear to exist")
      | Some op =>
          o ← load_object op;
          match Object_props o !! name with
          | None =>
              mret (0%Z, "attempt to get property that doesn't appear to exist")
          | Some p =>
              m ← get_mem;
              r ← lift (get m p);
              answer r
          end
      end
  end.

(** [func setprop(c, id, cname, val, valn, out) C.int] *)
Definition setprop (c id : N) (name json : string) : M (Z * string) :=
  cxs ← get_contexts;
  match cxs !! c with
  | None => mret (0%Z, "attempt to use context after destroyed")
  | Some cxp =>
      cx ← load cxp;
      match objs cx !! id with
      | None =>
          mret (0%Z, "attempt to use object that doesn't appear to exist")
      | Some op =>
          o ← load_object op;
          match Object_props o !! name with
          | None =>
              mret (0%Z, "attempt to set property that doesn't appear to exist")
          | Some p =>
              m ← get_mem;
              '(r, m') ← lift (set m p json);
              _ ← put_mem m';
              answer r
          end
      end
  end.

(** A run of the engine: every upcall is served by the exported function
    it names. *)
Fixpoint serve {R} (u : Upcalls EngineState R) : M R :=
  match u with
  | Done r e => primitive (fun _ => (r, e))
  | Reporter c filename lineno msg k =>
      _ ← reporter c filename lineno msg; serve k
  | Callback c id name args k => r ← callback c id name args; serve (k r)
  | Getprop c id name k => r ← getprop c id name; serve (k r)
  | Setprop c id name val k => r ← setprop c id name val; serve (k r)
  end.

Definition get_engine : M EngineState := fun w => Ok (engine w) w.

(** *** Evaluation *)

(** [func (cx *Context) Exec(source string) (err error)] *)
Definition Exec (cx : addr) (source : string) : M (option error) :=
  do cx (
    let filename := "eval" in
    c ← load cx;
    e ← get_engine;
    st ← serve (JSAPI_Eval (ptr c) source filename e);
    if negb (bool_decide (st = JSAPI_OK)) then
      p ← getError cx filename;
      let err := error_of_ptr p in
      match err with
      | Some _ => mret err
      | None =>
          mret (Some (ErrorString
            "Failed to exec javascript and no error report found"))
      end
    else mret None).

(** [func (cx *Context) Eval(source string, result interface{}) (err error)];
    beside the error, the model returns what is decoded into [result],
    taken to point to an [interface{}]. *)
Definition Eval (cx : addr) (source : string)
  : M (option error * option reflect.rvalue) :=
  do cx (
    let filename := "eval" in
    c ← load cx;
    e ← get_engine;
    '(st, jsonData) ← serve (JSAPI_EvalJSON (ptr c) source filename e);
    if negb (bool_decide (st = JSAPI_OK)) then
      p ← getError cx filename;
      let err := error_of_ptr p in
      match err with
      | Some _ => mret (err, None)
      | None =>
          mret (Some (ErrorString
            "Failed to eval javascript and no error report found"), None)
      end
    else
      match json.Unmarshal jsonData with
      | inl err => mret (Some err, None)
      | inr x => mret (None, x)
      end).

(** [func (cx *Context) ExecFrom(r io.Reader) (err error)] *)
Definition ExecFrom (cx : addr) (r : Reader) : M (option error) :=
  match ReadAll r with
  | inl err => mret (Some err)
  | inr b => Exec cx b
  end.

(** [func (cx *Context) ExecFile(filename string) (err error)] *)
Definition ExecFile (cx : addr) (filename : string) : M (option error) :=
  match Open filename with
  | inl err => mret (Some err)
  | inr f => ExecFrom cx f
  end.

(** *** Definitions *)

Definition with_objs (c : Context) (o : gmap N addr) : Context :=
  {| ptr := ptr c; objs := o; funcs := funcs c; Valid := Valid c;
     errs := errs c |}.

Definition with_funcs (c : Context) (f : gmap string Func) : Context :=
  {| ptr := ptr c; objs := objs c; funcs := f; Valid := Valid c;
     errs := errs c |}.

(** [o := &Object{}] *)
Definition new_object (ob : Object) : M addr := fun w =>
  let o : addr := fresh (dom (objects w)) in
  Ok o {| contexts := contexts w; heap := heap w;
          objects := <[o := ob]> (objects w); mem := mem w;
          engine := engine w |}.

(** [ov.Field(i)] *)
Definition Field (ov : Value) (i : nat) : outcome reflect.FieldValue :=
  match ov with
  | None => Panic "reflect: call of reflect.Value.Field on zero Value"
  | Some r => Return (reflect.Value_Field r i)
  end.

(** The loop of [defineObject] over the fields [i], [i+1], ... of the
    proxy. *)
Fixpoint define_props (cx o : addr) (ov : Value) (i : nat)
  (fields : list (reflect.StructField reflect.rtype)) : M unit :=
  match fields with
  | [] => mret ()
  | f :: rest =>
      fv ← lift (Field ov i);
      ob ← load_object o;
      _ ← store_object o
            {| Object_id := Object_id ob; Object_cx := Object_cx ob;
               Object_funcs := Object_funcs ob;
               Object_props :=
                 <[reflect.Name f :=
                     {| prop_name := reflect.Name f; prop_v := fv;
                        prop_t := reflect.Type_ f |}]> (Object_props ob);
               Object_proxy := Object_proxy ob |};
      c ← load cx;
      st ← primitive (JSAPI_DefineProperty (ptr c) (Object_id ob) (reflect.Name f));
      if negb (bool_decide (st = JSAPI_OK)) then
        panic "failed to define property"
      else define_props cx o ov (S i) rest
  end.

(** The properties the loop of [defineObject] leaves in [o.props]: field
    [i], [i+1], ... of the struct [s], each under its name. *)
Fixpoint props_of (s : reflect.rvalue) (i : nat)
  (fields : list (reflect.StructField reflect.rtype))
  (props : gmap string prop) : gmap string prop :=
  match fields with
  | [] => props
  | f :: rest =>
      props_of s (S i) rest
        (<[reflect.Name f :=
             {| prop_name := reflect.Name f;
                prop_v := reflect.Value_Field s i;
                prop_t := reflect.Type_ f |}]> props)
  end.

(** [func (cx *Context) defineObject(name string, proxy interface{},
    id *C.JSObject) *Object] *)
Definition defineObject (cx : addr) (name : string)
  (proxy : option reflect.rvalue) (id : N) : M addr :=
  o ← new_object {| Object_id := 0; Object_cx := cx; Object_funcs := ∅;
                    Object_props := ∅; Object_proxy := None |};
  _ ← do cx (
    c ← load cx;
    oid ← primitive (JSAPI_DefineObject (ptr c) id name);
    ob ← load_object o;
    _ ← store_object o
          {| Object_id := oid; Object_cx := Object_cx ob;
             Object_funcs := Object_funcs ob; Object_props := Object_props ob;
             Object_proxy := Object_proxy ob |};
    _ ← store cx (with_objs c (<[oid := o]> (objs c)));
    match proxy with
    | None => mret ()
    | Some _ =>
        ob ← load_object o;
        _ ← store_object o
              {| Object_id := Object_id ob; Object_cx := Object_cx ob;
                 Object_funcs := Object_funcs ob;
                 Object_props := Object_props ob; Object_proxy := proxy |};
        let ov := ValueOf proxy in
        ot ← lift (Type_of ov);
        '(ov, ot) ← (if bool_decide (reflect.Type_Kind ot = reflect.Ptr) then
                       let ov := Indirect ov in
                       ot ← lift (Type_of ov);
                       mret (ov, ot)
                     else mret (ov, ot));
        if negb (bool_decide (reflect.Type_Kind ot = reflect.Struct)) then
          panic "proxy object must be a kind of struct or pointer to a struct"
        else define_props cx o ov 0 (reflect.Type_Fields ot)
    end);
  mret o.

(** [func (cx *Context) DefineObject(name string, proxy interface{}) *Object] *)
Definition DefineObject (cx : addr) (name : string)
  (proxy : option reflect.rvalue) : M addr :=
  defineObject cx name proxy 0.

(** [func (cx *Context) defineFunction(name string, fun interface{},
    id *C.JSObject) *Func] *)
Definition defineFunction (cx : addr) (name : string)
  (fun_ : option reflect.rvalue) (id : N) : M Func :=
  f ← lift (NewFunc fun_);
  do cx (
    c ← load cx;
    st ← primitive (JSAPI_DefineFunction (ptr c) id name);
    if negb (bool_decide (st = JSAPI_OK)) then
      panic "failed to define function"
    else
      mret {| Func_Name := name; Func_v := Func_v f; Func_t := Func_t f |}).

(** [func (cx *Context) DefineFunction(name string, fun interface{}) *Func] *)
Definition DefineFunction (cx : addr) (name : string)
  (fun_ : option reflect.rvalue) : M Func :=
  f ← defineFunction cx name fun_ 0;
  c ← load cx;
  _ ← store cx (with_funcs c (<[Func_Name f := f]> (funcs c)));
  mret f.

(** [func (o *Object) DefineFunction(name string, fun interface{}) *Func] *)
Definition Object_DefineFunction (o : addr) (name : string)
  (fun_ : option reflect.rvalue) : M Func :=
  ob ← load_object o;
  f ← defineFunction (Object_cx ob) name fun_ (Object_id ob);
  ob ← load_object o;
  _ ← store_object o
        {| Object_id := Object_id ob; Object_cx := Object_cx ob;
           Object_funcs := <[Func_Name f := f]> (Object_funcs ob);
           Object_props := Object_props ob; Object_proxy := Object_proxy ob |};
  mret f.

(** [func (o *Object) DefineObject(name string, proxy interface{}) *Object] *)
Definition Object_DefineObject (o : addr) (name : string)
  (proxy : option reflect.rvalue) : M addr :=
  ob ← load_object o;
  defineObject (Object_cx ob) name proxy (Object_id ob).

End Contexts.

Arguments Ok {H En A} a w.
Arguments Fatal {H En A} r w.

(** ** A small host program

    Go types and values, a JSON codec, an engine and a file system small
    enough to run the definitions on.  The types are those of a host that
    binds a few functions and one struct; a number decoded from JSON is a
    [float64], kept here by its integral value; a converted value is kept
    as the value it was converted from together with its new type. *)

Module Fixture.

Inductive ty :=
| bool_t | int_t | float64_t | string_t
| interface_t            (* interface{} *)
| slice_t                (* []interface{} *)
| ptr_int_t              (* pointer to int *)
| Person_t               (* struct { Name string; Age int } *)
| ptr_Person_t           (* pointer to Person *)
| Window_t               (* struct { Title string; prototype int } *)
| add_t                  (* func(int, int) int *)
| raise_t                (* func(float64) *)
| join_t                 (* func(interface{}, ...interface{}) int *)
| pair_t                 (* func() (int, bool) *)
| peek_t.                (* func taking a pointer to int, returning int *)

#[global] Instance ty_eq_dec : EqDecision ty.
Proof. solve_decision. Defined.

#[local] Set Warnings "-register-all".

(** The functions the host binds. *)
Inductive fn := add | raise | join | pair | peek.

Inductive val :=
| bool_v (b : bool)
| int_v (n : Z)
| float64_v (n : Z)
| string_v (s : string)
| slice_v (xs : list (option val))
| ptr_int_v (target : option Z)
| Person_v (base : positive) (through_pointer : bool)
| Window_v (base : positive)
| ptr_Person_v (base : option positive)
| converted (v : val) (t : ty)
| func_v (f : fn).

Definition Kind_of (t : ty) : reflect.Kind :=
  match t with
  | bool_t => reflect.Bool
  | int_t => reflect.Int
  | float64_t => reflect.Float64
  | string_t => reflect.String
  | interface_t => reflect.Interface
  | slice_t => reflect.Slice
  | ptr_int_t | ptr_Person_t => reflect.Ptr
  | Person_t | Window_t => reflect.Struct
  | add_t | raise_t | join_t | pair_t | peek_t => reflect.Func
  end.

Definition String_of (t : ty) : string :=
  match t with
  | bool_t => "bool"
  | int_t => "int"
  | float64_t => "float64"
  | string_t => "string"
  | interface_t => "interface {}"
  | slice_t => "[]interface {}"
  | ptr_int_t => "*int"
  | Person_t => "jsapi.Person"
  | ptr_Person_t => "*jsapi.Person"
  | Window_t => "jsapi.Window"
  | add_t => "func(int, int) int"
  | raise_t => "func(float64)"
  | join_t => "func(interface {}, ...interface {}) int"
  | pair_t => "func() (int, bool)"
  | peek_t => "func(*int) int"
  end.

Definition assignable (a b : ty) : bool :=
  bool_decide (a = b) || bool_decide (b = interface_t).

Definition numeric (t : ty) : bool :=
  bool_decide (t = int_t) || bool_decide (t = float64_t).

Definition convertible (a b : ty) : bool :=
  assignable a b || (numeric a && numeric b)
  || (bool_decide (a = int_t) && bool_decide (b = string_t)).

Definition Elem_of (t : ty) : option ty :=
  match t with
  | slice_t => Some interface_t
  | ptr_int_t => Some int_t
  | ptr_Person_t => Some Person_t
  | _ => None
  end.

Definition Ins_of (t : ty) : list ty :=
  match t with
  | add_t => [int_t; int_t]
  | raise_t => [float64_t]
  | join_t => [interface_t; slice_t]
  | peek_t => [ptr_int_t]
  | _ => []
  end.

Definition Fields_of (t : ty) : list (reflect.StructField ty) :=
  match t with
  | Person_t => [ {| reflect.Name := "Name"; reflect.Type_ := string_t |};
                  {| reflect.Name := "Age"; reflect.Type_ := int_t |} ]
  | Window_t => [ {| reflect.Name := "Title"; reflect.Type_ := string_t |};
                  {| reflect.Name := "prototype"; reflect.Type_ := int_t |} ]
  | _ => []
  end.

Definition type_of_fn (f : fn) : ty :=
  match f with
  | add => add_t
  | raise => raise_t
  | join => join_t
  | pair => pair_t
  | peek => peek_t
  end.

Definition type_of (v : val) : ty :=
  match v with
  | bool_v _ => bool_t
  | int_v _ => int_t
  | float64_v _ => float64_t
  | string_v _ => string_t
  | slice_v _ => slice_t
  | ptr_int_v _ => ptr_int_t
  | Person_v _ _ => Person_t
  | Window_v _ => Window_t
  | ptr_Person_v _ => ptr_Person_t
  | converted _ t => t
  | func_v f => type_of_fn f
  end.

Definition elem_of_val (v : val) : option val :=
  match v with
  | ptr_int_v (Some n) => Some (int_v n)
  | ptr_Person_v (Some base) => Some (Person_v base true)
  | _ => None
  end.

Definition field_of (v : val) (i : nat) : reflect.FieldValue :=
  match v with
  | Person_v base through_pointer =>
      {| reflect.loc := base + Pos.of_succ_nat i;
         reflect.addressable := through_pointer;
         reflect.readonly := false |}
  | Window_v base =>
      {| reflect.loc := base + Pos.of_succ_nat i;
         reflect.addressable := false;
         reflect.readonly := bool_decide (i = 1%nat) |}
  | _ => {| reflect.loc := 1; reflect.addressable := false;
            reflect.readonly := true |}
  end.

(** The integral value of a number. *)
Fixpoint number (v : val) : Z :=
  match v with
  | int_v n | float64_v n => n
  | converted v _ => number v
  | _ => 0
  end.

(** The bodies of the bound functions:
    [add] returns the sum of its two arguments, [raise] panics with its
    argument, [join] counts its arguments, [pair] returns two values and
    [peek] is never bound. *)
Definition body (f : fn) (args : list val) : outcome (list val) :=
  match f with
  | add => Return [int_v (number (nth 0 args (int_v 0))
                          + number (nth 1 args (int_v 0)))]
  | raise => Panic (pretty (number (nth 0 args (int_v 0))))
  | join => Return [int_v (Z.of_nat (length args))]
  | pair => Return [int_v 7; bool_v true]
  | peek => Return [int_v 0]
  end.

Definition run (v : val) (args : list val) : outcome (list val) :=
  match v with
  | func_v f => body f args
  | _ => Panic "reflect: call of reflect.Value.Call on non-func Value"
  end.

#[global, refine] Instance R : reflect.Reflection := {|
  reflect.rtype := ty;
  reflect.rvalue := val;
  reflect.Type_Kind := Kind_of;
  reflect.Type_String := String_of;
  reflect.AssignableTo := assignable;
  reflect.ConvertibleTo := convertible;
  reflect.Type_Elem := Elem_of;
  reflect.Type_Ins := Ins_of;
  reflect.IsVariadic := fun t => bool_decide (t = join_t);
  reflect.Type_Fields := Fields_of;
  reflect.Value_Type := type_of;
  reflect.Value_Elem := elem_of_val;
  reflect.Value_Convert := converted;
  reflect.Value_Interface := Some;
  reflect.Value_Field := field_of;
  reflect.Value_run := run;
  reflect.SliceOf := slice_v
|}.
Proof.
  - reflexivity.
  - intros t. unfold assignable. rewrite bool_decide_eq_true_2; reflexivity.
Defined.

(** [json.Marshal] on these values. *)
Fixpoint encode (v : val) : error + string :=
  match v with
  | bool_v b => inr (if b then "true" else "false")
  | int_v n | float64_v n => inr (pretty n)
  | string_v s => inr (String "034"%char (s +:+ String "034"%char ""))
  | slice_v xs =>
      json.array (map (fun x => match x with
                                | None => inr "null"
                                | Some v => encode v
                                end) xs)
  | converted v t =>
      if numeric t then inr (pretty (number v))
      else inl (ErrorString "json: unsupported value")
  | _ => inl (ErrorString "json: unsupported type")
  end.

Definition encode_any (x : option val) : error + string :=
  match x with
  | None => inr "null"
  | Some v => encode v
  end.

(** [json.Unmarshal] on the texts the examples below send; a text that
    is no JSON at all is refused. *)
Definition decode (data : string) : error + option val :=
  if decide (data = "null") then inr None
  else if decide (data = "true") then inr (Some (bool_v true))
  else if decide (data = "25") then inr (Some (float64_v 25))
  else if decide (data = "[]") then inr (Some (slice_v []))
  else if decide (data = "[null]") then inr (Some (slice_v [None]))
  else if decide (data = "[1]") then inr (Some (slice_v [Some (float64_v 1)]))
  else if decide (data = "[25]") then inr (Some (slice_v [Some (float64_v 25)]))
  else if decide (data = "[1,2]") then
    inr (Some (slice_v [Some (float64_v 1); Some (float64_v 2)]))
  else if decide (data = "[true,2]") then
    inr (Some (slice_v [Some (bool_v true); Some (float64_v 2)]))
  else inl (ErrorString "invalid character looking for beginning of value").

Definition decode_slice (data : string) : error + list (option val) :=
  match decode data with
  | inl err => inl err
  | inr None => inr []
  | inr (Some (slice_v xs)) => inr xs
  | inr (Some _) =>
      inl (ErrorString
        "json: cannot unmarshal value into Go value of type []interface {}")
  end.

#[global, refine] Instance J : json.JSON := {|
  json.Unmarshal := decode;
  json.Unmarshal_slice := decode_slice;
  json.Marshal := encode_any
|}.
Proof. intros xs. reflexivity. Defined.

(** A toy engine.  Its state is the list of primitive calls made so far;
    it hands out the addresses 1, 2, ... and knows four scripts. *)
Inductive primitive_call :=
| NewContext_call
| DestroyContext_call (c : N)
| Eval_call (c : N) (source : string)
| DefineObject_call (c parent : N) (name : string)
| DefineProperty_call (c o : N) (name : string)
| DefineFunction_call (c parent : N) (name : string).

Definition next (e : list primitive_call) : N := N.of_nat (S (length e)).

(** The engine refuses to define the empty name and [prototype]. *)
Definition defined (name : string) : status :=
  if decide (name = "") then JSAPI_FAIL
  else if decide (name = "prototype") then JSAPI_FAIL
  else JSAPI_OK.

Definition script {R} (ok failed : R) (c : N) (source filename : string)
  (e : list primitive_call) : Upcalls (list primitive_call) R :=
  let e := (e ++ [Eval_call c source])%list in
  if decide (source = "throw new Error('ERROR1');") then
    Reporter c filename 1 "Error: ERROR1" (Done failed e)
  else if decide (source = "oom()") then
    Reporter c "__fatal__" 0 "out of memory" (Done failed e)
  else if decide (source = "lost()") then
    Done failed e
  else if decide (source = "raise(25)") then
    Callback c c "raise" "[25]" (fun r =>
      if decide (r.1 = 0%Z) then
        Reporter c filename 1 ("Error: " +:+ r.2) (Done failed e)
      else Done ok e)
  else Done ok e.

#[global] Instance En : Engine := {|
  EngineState := list primitive_call;
  JSAPI_NewContext := fun e => (next e, (e ++ [NewContext_call])%list);
  JSAPI_DestroyContext := fun c e => (e ++ [DestroyContext_call c])%list;
  JSAPI_Eval := script JSAPI_OK JSAPI_FAIL;
  JSAPI_EvalJSON := script (JSAPI_OK, "true") (JSAPI_FAIL, "");
  JSAPI_DefineObject := fun c parent name e =>
    (next e, (e ++ [DefineObject_call c parent name])%list);
  JSAPI_DefineProperty := fun c o name e =>
    (defined name, (e ++ [DefineProperty_call c o name])%list);
  JSAPI_DefineFunction := fun c parent name e =>
    (defined name, (e ++ [DefineFunction_call c parent name])%list);
  context_o := fun c => c
|}.

(** A file system with one file, and readers that are what is read from
    them. *)
#[global] Instance Fi : Files := {|
  Reader := error + string;
  ReadAll := fun r => r;
  Open := fun filename =>
    if decide (filename = "jsapi_test1.js") then inr (inr "1+1")
    else inl (ErrorString "open: no such file or directory")
|}.

(** The process at its start: no context, the engine untouched, and a
    [Person{"jeff", 22}] at address 1 of the host memory. *)
Definition start : World := {|
  contexts := ∅;
  heap := ∅;
  objects := ∅;
  mem := <[2%positive := string_v "jeff"]> (<[3%positive := int_v 22]>
           (fun _ => int_v 0));
  engine := []
|}.

(** Runs one computation after another; a panic ends the process. *)
Definition after {A B} (first : result A) (second : A -> M B) : result B :=
  match first with
  | Ok a w => second a w
  | Fatal r w => Fatal r w
  end.

(** The context at an address of a state; an invalid, empty one where
    there is none. *)
Definition context_at (w : World) (cx : addr) : Context :=
  match heap w !! cx with
  | Some c => c
  | None => {| ptr := 0; objs := ∅; funcs := ∅; Valid := false;
               errs := None |}
  end.

(** The bound functions, as [defineFunction] leaves them. *)
Definition bound (name : string) (f : fn) : Func :=
  {| Func_Name := name; Func_v := Some (func_v f); Func_t := type_of_fn f |}.

(** The property [Age] of the [Person] at address 1, bound through a
    pointer. *)
Definition Age : prop :=
  {| prop_name := "Age"; prop_v := field_of (Person_v 1 true) 1;
     prop_t := int_t |}.

(** A host that makes a context and binds [add] and [raise]. *)
Definition bind_all (cx : addr) : M addr :=
  _ ← DefineFunction cx "add" (Some (func_v add));
  _ ← DefineFunction cx "raise" (Some (func_v raise));
  mret cx.

Definition running : result addr := after (NewContext start) bind_all.

(** The same host after it has destroyed the context. *)
Definition destroyed_context : result unit :=
  after running (fun cx => Destroy cx).

(** The host with the [Person] bound as the object [o]. *)
Definition with_person : result addr :=
  after running (fun cx =>
    DefineObject cx "o" (Some (ptr_Person_v (Some 1%positive)))).

(** The object at an address of a state; an empty one where there is
    none. *)
Definition object_at (w : World) (o : addr) : Object :=
  match objects w !! o with
  | Some ob => ob
  | None => {| Object_id := 0; Object_cx := 1; Object_funcs := ∅;
               Object_props := ∅; Object_proxy := None |}
  end.

(** The host with a second context. *)
Definition two_contexts : result addr :=
  after running (fun _ => NewContext).

(** The property [Title] of a [Window] bound by value, and its field
    [prototype], which is not exported. *)
Definition Title : prop :=
  {| prop_name := "Title"; prop_v := field_of (Window_v 5) 0;
     prop_t := string_t |}.

Definition prototype : prop :=
  {| prop_name := "prototype"; prop_v := field_of (Window_v 5) 1;
     prop_t := int_t |}.

(** An engine that files the error of the script [lib()] under the name
    of a library file, and a process with one context on it. *)
Definition En_lib : Engine := {|
  EngineState := list primitive_call;
  JSAPI_NewContext := fun e => (next e, (e ++ [NewContext_call])%list);
  JSAPI_DestroyContext := fun c e => (e ++ [DestroyContext_call c])%list;
  JSAPI_Eval := fun c source filename e =>
    if decide (source = "lib()") then
      Reporter c "lib.js" 3 "Error: LIB"
        (Done JSAPI_FAIL (e ++ [Eval_call c source])%list)
    else script JSAPI_OK JSAPI_FAIL c source filename e;
  JSAPI_EvalJSON := script (JSAPI_OK, "true") (JSAPI_FAIL, "");
  JSAPI_DefineObject := fun c parent name e =>
    (next e, (e ++ [DefineObject_call c parent name])%list);
  JSAPI_DefineProperty := fun c o name e =>
    (defined name, (e ++ [DefineProperty_call c o name])%list);
  JSAPI_DefineFunction := fun c parent name e =>
    (defined name, (e ++ [DefineFunction_call c parent name])%list);
  context_o := fun c => c
|}.

Definition lib_context : Context :=
  {| ptr := 1; objs := ∅; funcs := ∅; Valid := true; errs := None |}.

Definition lib_process : World (En := En_lib) :=
  @Build_World R En_lib {[ 1%N := 1%positive ]} {[ 1%positive := lib_context ]}
    ∅ (fun _ => int_v 0) [NewContext_call].


End Fixture.

(** * Properties *)

Section Properties.
Context `{J : json.JSON} `{En : Engine} `{Fi : Files}.

(** ** The value caster *)

Lemma Indirect_pointer (r : reflect.rvalue) :
  reflect.Type_Kind (reflect.Value_Type r) = reflect.Ptr ->
  Indirect (Some r) = reflect.Value_Elem r.
Proof.
  intros Hk. unfold Indirect. destruct (decide _) as [_|Hn]; [reflexivity|].
  contradiction.
Qed.

(** [cast] panics on the zero Value, which [reflect.ValueOf] makes of a
    nil interface such as a decoded JSON [null]. *)
Lemma cast_of_zero_Value (t : reflect.rtype) :
  cast (ValueOf None) t
  = Panic "reflect: call of reflect.Value.Type on zero Value".
Proof. reflexivity. Qed.

(** [cast] panics when it dereferences a nil pointer. *)
Lemma cast_nil_pointer (r : reflect.rvalue) (t : reflect.rtype) :
  reflect.Type_Kind (reflect.Value_Type r) = reflect.Ptr ->
  reflect.Type_Kind t <> reflect.Ptr ->
  reflect.Value_Elem r = None ->
  cast (Some r) t = Panic "reflect: call of reflect.Value.Type on zero Value".
Proof.
  intros Hk Ht He. unfold cast, Type_of at 1. cbn -[Indirect].
  rewrite (bool_decide_eq_true_2 _ Hk), (bool_decide_eq_false_2 _ Ht).
  cbn -[Indirect]. rewrite (Indirect_pointer _ Hk), He. reflexivity.
Qed.

(** C6 (as amended): for a value [v] that holds a Go value, and whose
    dereference, where [cast] takes it, is not that of a nil pointer:
    if [v]'s type is a pointer and [t] is not, [v] is first dereferenced;
    then a value whose type is assignable to [t] is returned unchanged,
    otherwise a value convertible to [t] is returned converted, otherwise
    [cast] returns the error "cannot cast A to B" with the kinds of the
    (dereferenced) value and of [t]. *)
Theorem cast_of_valid_value (r r' : reflect.rvalue) (t : reflect.rtype) :
  (if bool_decide (reflect.Type_Kind (reflect.Value_Type r) = reflect.Ptr)
      && negb (bool_decide (reflect.Type_Kind t = reflect.Ptr))
   then Indirect (Some r) else Some r) = Some r' ->
  cast (Some r) t
  = Return
      (if reflect.AssignableTo (reflect.Value_Type r') t then (Some r', None)
       else if reflect.ConvertibleTo (reflect.Value_Type r') t
            then (Some (reflect.Value_Convert r' t), None)
            else (Some r',
                  Some (cannot_cast (reflect.Type_Kind (reflect.Value_Type r'))
                                    (reflect.Type_Kind t)))).
Proof.
  intros Hv. unfold cast, Type_of at 1. cbn -[Indirect]. rewrite Hv. cbn.
  destruct (reflect.AssignableTo (reflect.Value_Type r') t); cbn; [reflexivity|].
  destruct (reflect.ConvertibleTo (reflect.Value_Type r') t); reflexivity.
Qed.

(** A successful cast yields a value assignable to the target type. *)
Lemma cast_assignable (v v' : Value) (t : reflect.rtype) :
  cast v t = Return (v', None) ->
  exists r', v' = Some r'
    /\ reflect.AssignableTo (reflect.Value_Type r') t = true.
Proof.
  unfold cast. destruct v as [r|]; cbn; [|discriminate].
  destruct (if _ && _ then _ else _) as [r1|]; cbn; [|discriminate].
  destruct (reflect.AssignableTo (reflect.Value_Type r1) t) eqn:Ha; cbn.
  - intros [= <-]. eauto.
  - destruct (reflect.ConvertibleTo _ _); cbn; intros [= <-].
    eexists. split; [reflexivity|].
    rewrite reflect.Convert_Type. apply reflect.AssignableTo_refl.
Qed.

(** ** Function bindings *)

Lemma cast_inargs_length (t : reflect.rtype) (inargs : list (option reflect.rvalue)) :
  forall i invals,
    cast_inargs t i inargs = Return (inr invals) ->
    length invals = length inargs.
Proof.
  induction inargs as [|x rest IH]; intros i invals; cbn.
  - intros [= <-]. reflexivity.
  - destruct (if _ && _ then _ else _) as [ti|]; cbn; [|discriminate].
    destruct (cast (ValueOf x) ti) as [[v [e|]]|]; cbn; try discriminate.
    destruct (cast_inargs t (i + 1) rest) as [[e|vs]|] eqn:Hr; cbn;
      try discriminate.
    intros [= <-]. cbn. f_equal. eapply IH, Hr.
Qed.

(** [reflect.Value.Call] refuses a call with fewer arguments than the
    function has fixed parameters. *)
Lemma Value_Call_too_few (fn : reflect.rvalue) (ins : list Value) :
  reflect.IsVariadic (reflect.Value_Type fn) = true ->
  (Z.of_nat (length ins) < NumIn (reflect.Value_Type fn) - 1)%Z ->
  Value_Call (Some fn) ins = Panic "reflect: Call with too few input arguments".
Proof.
  intros Hv Hlt. unfold Value_Call. rewrite Hv.
  destruct (decide _) as [_|Hn]; [reflexivity|]. contradiction.
Qed.

(** A binding made by [NewFunc] holds a function and its own type. *)
Lemma NewFunc_binding (fun_ : option reflect.rvalue) (f : Func) :
  NewFunc fun_ = Return f ->
  exists fn, Func_v f = Some fn /\ reflect.Value_Type fn = Func_t f
             /\ reflect.Type_Kind (Func_t f) = reflect.Func.
Proof.
  unfold NewFunc, ValueOf. destruct fun_ as [fn|]; [|discriminate].
  destruct (bool_decide _) eqn:Hk; cbn; [|discriminate].
  destruct (check_inargs _); cbn; [|discriminate].
  intros [= <-]. exists fn. cbn. repeat split.
  apply bool_decide_eq_true_1 in Hk. exact Hk.
Qed.

(** A panic of the invocation, the callable's own included, is a panic of
    [call]. *)
Lemma call_panics_with_invocation (f : Func) (in_ r : string)
  (inargs : list (option reflect.rvalue)) (invals : list Value) :
  json.Unmarshal_slice in_ = inr inargs ->
  (Z.of_nat (length inargs) = NumIn (Func_t f)
   \/ reflect.IsVariadic (Func_t f) = true) ->
  cast_inargs (Func_t f) 0 inargs = Return (inr invals) ->
  Value_Call (Func_v f) invals = Panic r ->
  call f in_ = Panic r.
Proof.
  intros Hd Har Hc Hr. unfold call. rewrite Hd.
  replace (negb _ && negb _) with false.
  2:{ destruct Har as [->| ->].
      - rewrite bool_decide_eq_true_2; reflexivity.
      - rewrite andb_false_r. reflexivity. }
  rewrite Hc. unfold mbind, outcome_bind. rewrite Hr. reflexivity.
Qed.

(** C3 (as amended): when the arguments decode, a callable that is not
    variadic and gets a number of arguments different from its number of
    parameters yields the error that reports the expected and the actual
    count; for a variadic callable [call] checks no count: every number of
    arguments, also one below the number of fixed parameters, goes on to
    the casts and the invocation; and when the arguments of such a short
    call all cast, the invocation panics in [reflect] and [Call] returns
    the recovered error, prefixed with the bound name and without counts. *)
Theorem call_arity (f : Func) (in_ : string)
  (inargs : list (option reflect.rvalue)) :
  json.Unmarshal_slice in_ = inr inargs ->
  let len := Z.of_nat (length inargs) in
  (reflect.IsVariadic (Func_t f) = false -> len <> NumIn (Func_t f) ->
   call f in_
   = Return ("", Some (invalid_number_of_arguments (NumIn (Func_t f)) len)))
  /\ (reflect.IsVariadic (Func_t f) = true ->
      call f in_
      = (r ← cast_inargs (Func_t f) 0 inargs;
         match r with
         | inl err => Return ("", Some err)
         | inr invals =>
             outvals ← Value_Call (Func_v f) invals;
             Return (encode_outvals outvals)
         end))
  /\ (reflect.IsVariadic (Func_t f) = true ->
      (len < NumIn (Func_t f) - 1)%Z ->
      forall fn invals,
        Func_v f = Some fn -> reflect.Value_Type fn = Func_t f ->
        cast_inargs (Func_t f) 0 inargs = Return (inr invals) ->
        Call f in_
        = ("", Some (ErrorString
             (Func_Name f +:+ ": reflect: Call with too few input arguments")))).
Proof.
  intros Hd len. repeat split.
  - intros Hv Hne. unfold call. rewrite Hd. fold len.
    rewrite (bool_decide_eq_false_2 _ Hne), Hv. reflexivity.
  - intros Hv. unfold call. rewrite Hd, Hv.
    rewrite andb_false_r. reflexivity.
  - intros Hv Hlt fn invals Hfn Hty Hc.
    unfold Call, call. rewrite Hd, Hv, andb_false_r, Hc. cbn.
    rewrite Hfn, Value_Call_too_few.
    + reflexivity.
    + rewrite Hty. exact Hv.
    + rewrite Hty, (cast_inargs_length _ _ _ _ Hc). exact Hlt.
Qed.

(** C5: a panic raised while a bound callable is called, whatever raised
    it, is recovered by [Call] and returned as an error whose message is
    the bound name, ": " and the panic value; the callback that dispatched
    the call answers with that message and flag 0, and leaves the process
    as it was: the context is still registered and valid. *)
Theorem Call_recovers_panic (f : Func) (in_ r : string) :
  call f in_ = Panic r ->
  Call f in_ = ("", Some (ErrorString (Func_Name f +:+ ": " +:+ r)))
  /\ forall (w : World) (c id : N) (name : string) (cxp : addr) (cx : Context),
       contexts w !! c = Some cxp ->
       heap w !! cxp = Some cx ->
       Valid cx = true ->
       (id = context_o c /\ funcs cx !! name = Some f
        \/ id <> context_o c
           /\ exists op o, objs cx !! id = Some op /\ objects w !! op = Some o
                           /\ Object_funcs o !! name = Some f) ->
       callback c id name in_ w = Ok (0%Z, Func_Name f +:+ ": " +:+ r) w
       /\ forall A (fn : M A), do cxp fn w = fn w.
Proof.
  intros Hp.
  assert (HC : Call f in_ = ("", Some (ErrorString (Func_Name f +:+ ": " +:+ r)))).
  { unfold Call. rewrite Hp. reflexivity. }
  split; [exact HC|].
  intros w c id name cxp cx Hc Hh Hv Hres. split.
  - unfold callback, get_contexts, mbind, M_bind, load. cbn. rewrite Hc, Hh.
    destruct Hres as [[-> Hf]|[Hne (op & o & Ho & Hob & Hf)]].
    + destruct (decide _) as [_|Hn]; [|contradiction].
      rewrite Hf, HC. reflexivity.
    + destruct (decide _) as [He|_]; [contradiction|].
      rewrite Ho. unfold load_object. rewrite Hob, Hf, HC. reflexivity.
  - intros A fn. unfold do, mbind, M_bind, load. rewrite Hh, Hv. cbn.
    rewrite Hh, Hv. reflexivity.
Qed.

Lemma encode_outvals_by_count (outvals : list reflect.rvalue) :
  encode_outvals outvals
  = match outvals with
    | [] => ("", None)
    | [o] => marshalled (json.Marshal (reflect.Value_Interface o))
    | _ => marshalled (json.array
             (map (fun o => json.Marshal (reflect.Value_Interface o)) outvals))
    end.
Proof.
  destruct outvals as [|o [|o' rest]]; try reflexivity.
  unfold encode_outvals. rewrite json.Marshal_SliceOf, map_map. reflexivity.
Qed.

(** C7: when the invocation of a bound callable succeeds, no result
    encodes to the empty payload, one result to the JSON encoding of that
    value, and two or more to the JSON array of the encodings of the
    results in their order. *)
Theorem call_encodes_results (f : Func) (in_ : string)
  (inargs : list (option reflect.rvalue)) (invals : list Value)
  (outvals : list reflect.rvalue) :
  json.Unmarshal_slice in_ = inr inargs ->
  (Z.of_nat (length inargs) = NumIn (Func_t f)
   \/ reflect.IsVariadic (Func_t f) = true) ->
  cast_inargs (Func_t f) 0 inargs = Return (inr invals) ->
  Value_Call (Func_v f) invals = Return outvals ->
  Call f in_
  = match outvals with
    | [] => ("", None)
    | [o] => marshalled (json.Marshal (reflect.Value_Interface o))
    | _ => marshalled (json.array
             (map (fun o => json.Marshal (reflect.Value_Interface o)) outvals))
    end.
Proof.
  intros Hd Har Hc Hr. unfold Call, call. rewrite Hd.
  replace (negb _ && negb _) with false.
  2:{ destruct Har as [->| ->].
      - rewrite bool_decide_eq_true_2; reflexivity.
      - rewrite andb_false_r. reflexivity. }
  rewrite Hc. unfold mbind, outcome_bind. rewrite Hr.
  rewrite <- encode_outvals_by_count.
  destruct (encode_outvals outvals); reflexivity.
Qed.

(** ** Contexts *)

Lemma do_destroyed {A} (w : World) (cx : addr) (c : Context) (fn : M A) :
  heap w !! cx = Some c -> Valid c = false ->
  do cx fn w = Fatal destroyed w.
Proof.
  intros Hh Hv. unfold do, mbind, M_bind, load. rewrite Hh, Hv. reflexivity.
Qed.

Lemma do_valid {A} (w : World) (cx : addr) (c : Context) (fn : M A) :
  heap w !! cx = Some c -> Valid c = true ->
  do cx fn w = fn w.
Proof.
  intros Hh Hv. unfold do, mbind, M_bind, load. rewrite Hh, Hv. cbn.
  rewrite Hh, Hv. reflexivity.
Qed.

(** C10: [Destroy] on a context that is no longer valid does nothing: it
    returns without a panic and without a call of [do], and the state of
    the process, the context and the engine included, is the one before;
    so a second [Destroy] after a first one changes nothing. *)
Theorem Destroy_idempotent (w : World) (cx : addr) (c : Context) :
  heap w !! cx = Some c ->
  (Valid c = false -> Destroy cx w = Ok () w)
  /\ (forall w', Destroy cx w = Ok () w' -> Destroy cx w' = Ok () w').
Proof.
  intros Hh.
  assert (Hno : forall w0 c0, heap w0 !! cx = Some c0 -> Valid c0 = false ->
                              Destroy cx w0 = Ok () w0).
  { intros w0 c0 Hh0 Hv0. unfold Destroy, mbind, M_bind, load.
    rewrite Hh0, Hv0. reflexivity. }
  split; [apply Hno; exact Hh|].
  intros w' Hd. destruct (Valid c) eqn:Hv.
  - unfold Destroy in Hd. unfold mbind at 1, M_bind at 1, load at 1 in Hd.
    rewrite Hh, Hv in Hd. rewrite (do_valid _ _ _ _ Hh Hv) in Hd.
    unfold mbind, M_bind, load, primitive, store in Hd. rewrite Hh in Hd.
    cbn in Hd. injection Hd as <-.
    eapply Hno; cbn; [apply lookup_insert_eq|reflexivity].
  - rewrite (Hno _ _ Hh Hv) in Hd. injection Hd as <-. eapply Hno; eassumption.
Qed.


(** ** Definition-time errors *)







(** ** What [Destroy], [getError] and [set] leave undone *)

(** [Destroy] tears the engine instance down and marks the context, and
    does not touch the package variable [contexts]. *)
Lemma Destroy_valid (w : World) (cx : addr) (c : Context) :
  heap w !! cx = Some c -> Valid c = true ->
  exists w', Destroy cx w = Ok () w'
    /\ contexts w' = contexts w
    /\ engine w' = JSAPI_DestroyContext (ptr c) (engine w)
    /\ heap w' !! cx = Some {| ptr := 0; objs := objs c; funcs := funcs c;
                               Valid := false; errs := errs c |}.
Proof.
  intros Hh Hv. unfold Destroy. unfold mbind at 1, M_bind at 1, load at 1.
  rewrite Hh, Hv. rewrite (do_valid _ _ _ _ Hh Hv).
  unfold mbind, M_bind, load, primitive, store. rewrite Hh. cbn.
  eexists. split; [reflexivity|]. cbn. repeat split.
  apply (lookup_insert_eq (M:=gmap positive)).
Qed.

(** Every callback finds a context that [Destroy] has invalidated. *)
Lemma Destroy_keeps_registered (w : World) (c : N) (cx : addr) (cv : Context) :
  contexts w !! c = Some cx -> heap w !! cx = Some cv -> Valid cv = true ->
  exists w' cv', Destroy cx w = Ok () w'
    /\ contexts w' !! c = Some cx
    /\ heap w' !! cx = Some cv' /\ Valid cv' = false
    /\ funcs cv' = funcs cv /\ objs cv' = objs cv.
Proof.
  intros Hc Hh Hv. destruct (Destroy_valid w cx cv Hh Hv) as (w' & Hd & Hcs & _ & Hh').
  exists w'. eexists. split; [exact Hd|]. rewrite Hcs.
  split; [exact Hc|]. split; [exact Hh'|]. repeat split.
Qed.

(** When only the fatal bucket holds a report, [getError] returns it and
    leaves the sink as it was. *)
Lemma getError_fatal (w : World) (cx : addr) (c : Context)
  (filename : string) (r : ErrorReport) :
  heap w !! cx = Some c ->
  errs_lookup (errs c) filename = None ->
  errs_lookup (errs c) "__fatal__" = Some r ->
  exists w', getError cx filename w = Ok (Some r) w'
    /\ exists c', heap w' !! cx = Some c' /\ errs c' = errs c.
Proof.
  intros Hh Hf Hfatal. unfold getError, mbind, M_bind, load, store.
  rewrite Hh, Hf, Hfatal. cbn. eexists. split; [reflexivity|]. cbn.
  eexists. split; [apply (lookup_insert_eq (M:=gmap positive))|]. cbn.
  destruct (errs c) as [m|]; cbn in *; [|reflexivity].
  rewrite delete_id; [reflexivity|exact Hf].
Qed.

(** When the sink holds a report under the file name, [getError] returns
    and removes it. *)
Lemma getError_found (w : World) (cx : addr) (c : Context)
  (filename : string) (r : ErrorReport) :
  heap w !! cx = Some c ->
  errs_lookup (errs c) filename = Some r ->
  exists w', getError cx filename w = Ok (Some r) w'
    /\ exists c', heap w' !! cx = Some c'
                  /\ errs_lookup (errs c') filename = None.
Proof.
  intros Hh Hf. unfold getError, mbind, M_bind, load, store.
  rewrite Hh, Hf. cbn. eexists. split; [reflexivity|]. cbn.
  eexists. split; [apply (lookup_insert_eq (M:=gmap positive))|]. cbn.
  destruct (errs c) as [m|]; cbn in *; [|reflexivity].
  apply lookup_delete_eq.
Qed.

(** An interface made of a [*ErrorReport] is never the nil interface. *)
Lemma error_of_ptr_not_nil (p : option ErrorReport) : error_of_ptr p <> None.
Proof. discriminate. Qed.

(** A cast that fails hands back a value that is not assignable. *)
Lemma cast_error (v v' : Value) (t : reflect.rtype) (e : error) :
  cast v t = Return (v', Some e) ->
  exists r', v' = Some r'
    /\ reflect.AssignableTo (reflect.Value_Type r') t = false
    /\ e = cannot_cast (reflect.Type_Kind (reflect.Value_Type r'))
                       (reflect.Type_Kind t).
Proof.
  unfold cast. destruct v as [r|]; cbn -[Indirect]; [|discriminate].
  destruct (if _ && _ then _ else _) as [r1|]; cbn; [|discriminate].
  destruct (reflect.AssignableTo (reflect.Value_Type r1) t) eqn:Ha; cbn.
  - discriminate.
  - destruct (reflect.ConvertibleTo _ _); cbn; [discriminate|].
    intros [= <- <-]. eauto.
Qed.

(** [set] after a cast that failed: the error is dropped; an unsettable
    field is reported, a settable one is assigned and [reflect] panics. *)
Lemma set_after_failed_cast (m : Mem) (p : prop) (injson : string)
  (x : option reflect.rvalue) (v' : Value) (e : error) :
  json.Unmarshal injson = inr x ->
  cast (ValueOf x) (prop_t p) = Return (v', Some e) ->
  exists r', v' = Some r'
    /\ set m p injson
       = if CanSet (prop_v p)
         then Panic ("reflect.Set: value of type "
                     +:+ reflect.Type_String (reflect.Value_Type r')
                     +:+ " is not assignable to type "
                     +:+ reflect.Type_String (prop_t p))
         else Return (("", Some (not_settable (prop_name p))), m).
Proof.
  intros Hd Hc. destruct (cast_error _ _ _ _ Hc) as (r' & -> & Ha & _).
  exists r'. split; [reflexivity|]. unfold set. rewrite Hd, Hc. cbn.
  unfold CanSet, Set_.
  destruct (reflect.readonly (prop_v p)), (reflect.addressable (prop_v p));
    cbn; try reflexivity.
  rewrite Ha. reflexivity.
Qed.

End Properties.


(** * Further properties of the binding layer *)

Section Coverage.
Context `{J : json.JSON} `{En : Engine} `{Fi : Files}.

(** ** The error sink *)

(** X1: a report filed with [setError] is what the next [getError] for the
    same file name returns, whatever the sink held under that name before;
    that [getError] removes it and leaves the reports under every other
    name as they were. *)
Theorem setError_then_getError (w : World) (cx : addr) (c : Context)
  (filename : string) (line : N) (message : string) :
  heap w !! cx = Some c ->
  exists w1 w2 c2,
    setError cx filename line message w = Ok () w1
    /\ getError cx filename w1
       = Ok (Some {| Filename := filename; Line := line;
                     Message := message |}) w2
    /\ heap w2 !! cx = Some c2
    /\ errs_lookup (errs c2) filename = None
    /\ (forall k, k <> filename ->
          errs_lookup (errs c2) k = errs_lookup (errs c) k)
    /\ contexts w2 = contexts w /\ engine w2 = engine w.
Proof.
  intros Hh. unfold setError, getError, mbind, M_bind, load, store.
  rewrite Hh. cbn. do 3 eexists. split; [reflexivity|]. cbn.
  rewrite (lookup_insert_eq (M:=gmap positive)). cbn.
  rewrite (lookup_insert_eq (M:=gmap string)). cbn.
  split; [reflexivity|]. cbn.
  split; [apply (lookup_insert_eq (M:=gmap positive))|]. cbn.
  split; [apply lookup_delete_eq|]. split; [|split; reflexivity].
  intros k Hk. rewrite lookup_delete_ne by congruence.
  rewrite lookup_insert_ne by congruence.
  destruct (errs c); [reflexivity|apply lookup_empty].
Qed.

(** ** Evaluation *)

(** X2: when the engine reports an uncaught error of the script under the
    file name [eval] and fails, [Exec] on a valid, registered context
    returns that report, with its line and message, and takes it out of
    the sink. *)
Theorem Exec_returns_the_report (w : World) (cx : addr) (c : Context)
  (source : string) (line : N) (msg : string) (e : EngineState) :
  heap w !! cx = Some c -> Valid c = true ->
  contexts w !! ptr c = Some cx ->
  JSAPI_Eval (ptr c) source "eval" (engine w)
  = Reporter (ptr c) "eval" line msg (Done JSAPI_FAIL e) ->
  exists w' c',
    Exec cx source w
    = Ok (Some (ReportError (Some {| Filename := "eval"; Line := line;
                                     Message := msg |}))) w'
    /\ engine w' = e
    /\ heap w' !! cx = Some c' /\ Valid c' = true
    /\ errs_lookup (errs c') "eval" = None.
Proof.
  intros Hh Hv Hc Hrun. do 2 eexists. split.
  { unfold Exec. rewrite (do_valid _ _ _ _ Hh Hv).
    unfold mbind, M_bind, load, get_engine. rewrite Hh, Hrun. cbn.
    unfold reporter, get_contexts. unfold mbind, M_bind. rewrite Hc.
    unfold setError, mbind, M_bind, load, store. rewrite Hh. cbn.
    change (bool_decide (JSAPI_FAIL = JSAPI_OK)) with false. cbn.
    unfold getError, mbind, M_bind, load, store. cbn.
    rewrite (lookup_insert_eq (M:=gmap positive)). cbn.
    rewrite (lookup_insert_eq (M:=gmap string)). cbn. reflexivity. }
  cbn. split; [reflexivity|].
  split; [apply (lookup_insert_eq (M:=gmap positive))|]. cbn.
  split; [exact Hv|]. apply lookup_delete_eq.
Qed.

(** X3: a report the engine files under another name than [eval] and
    [__fatal__] is lost for the call that caused it: with nothing else in
    the sink, the failing [Exec] returns an error that holds no report,
    and the report stays in the sink under its name. *)
Theorem Exec_loses_a_foreign_report (w : World) (cx : addr) (c : Context)
  (source filename : string) (line : N) (msg : string) (e : EngineState) :
  heap w !! cx = Some c -> Valid c = true ->
  contexts w !! ptr c = Some cx ->
  filename <> "eval" -> filename <> "__fatal__" ->
  errs_lookup (errs c) "eval" = None ->
  errs_lookup (errs c) "__fatal__" = None ->
  JSAPI_Eval (ptr c) source "eval" (engine w)
  = Reporter (ptr c) filename line msg (Done JSAPI_FAIL e) ->
  exists w' c',
    Exec cx source w = Ok (Some (ReportError None)) w'
    /\ heap w' !! cx = Some c'
    /\ errs_lookup (errs c') filename
       = Some {| Filename := filename; Line := line; Message := msg |}.
Proof.
  intros Hh Hv Hc Hne Hnf He Hf Hrun.
  assert (Hl : forall k, match errs c with Some m => m | None => ∅ end !! k
                         = errs_lookup (errs c) k).
  { intros k. destruct (errs c); [reflexivity|apply lookup_empty]. }
  do 2 eexists. split.
  { unfold Exec. rewrite (do_valid _ _ _ _ Hh Hv).
    unfold mbind, M_bind, load, get_engine. rewrite Hh, Hrun. cbn.
    unfold reporter, get_contexts. unfold mbind, M_bind. rewrite Hc.
    unfold setError, mbind, M_bind, load, store. rewrite Hh. cbn.
    change (bool_decide (JSAPI_FAIL = JSAPI_OK)) with false. cbn.
    unfold getError, mbind, M_bind, load, store. cbn.
    rewrite (lookup_insert_eq (M:=gmap positive)). cbn.
    rewrite !lookup_insert_ne by congruence.
    rewrite !Hl, He, Hf. cbn. reflexivity. }
  cbn.
  split; [apply (lookup_insert_eq (M:=gmap positive))|]. cbn.
  apply lookup_insert_eq.
Qed.

(** X4: [ExecFrom] and [ExecFile] return an error of reading or opening as
    it is and do nothing else, whatever the context, a destroyed one
    included; once the source is read they are [Exec] of it. *)
Theorem Exec_of_files (w : World) (cx : addr) :
  (forall filename err, Open filename = inl err ->
     ExecFile cx filename w = Ok (Some err) w)
  /\ (forall filename f err, Open filename = inr f -> ReadAll f = inl err ->
        ExecFile cx filename w = Ok (Some err) w)
  /\ (forall r err, ReadAll r = inl err -> ExecFrom cx r w = Ok (Some err) w)
  /\ (forall filename f b, Open filename = inr f -> ReadAll f = inr b ->
        ExecFile cx filename w = Exec cx b w)
  /\ (forall r b, ReadAll r = inr b -> ExecFrom cx r w = Exec cx b w).
Proof.
  split; [|split; [|split; [|split]]].
  - intros filename err Ho. unfold ExecFile. rewrite Ho. reflexivity.
  - intros filename f err Ho Hr. unfold ExecFile, ExecFrom. rewrite Ho, Hr.
    reflexivity.
  - intros r err Hr. unfold ExecFrom. rewrite Hr. reflexivity.
  - intros filename f b Ho Hr. unfold ExecFile, ExecFrom.
    rewrite Ho, Hr. reflexivity.
  - intros r b Hr. unfold ExecFrom. rewrite Hr. reflexivity.
Qed.

(** ** The life of a context *)

(** X5: [NewContext] always succeeds; the context it returns is a new
    object, valid, without functions, objects or reports, holding the
    engine's handle and registered under it; every context that existed
    stays as it was, and so does the registration of every other
    handle. *)
Theorem NewContext_makes_a_context (w : World) :
  let p := (JSAPI_NewContext (engine w)).1 in
  exists cx w',
    NewContext w = Ok cx w'
    /\ heap w !! cx = None
    /\ heap w' !! cx = Some {| ptr := p; objs := ∅; funcs := ∅;
                               Valid := true; errs := None |}
    /\ contexts w' !! p = Some cx
    /\ (forall cx', cx' <> cx -> heap w' !! cx' = heap w !! cx')
    /\ (forall h, h <> p -> contexts w' !! h = contexts w !! h)
    /\ engine w' = (JSAPI_NewContext (engine w)).2.
Proof.
  intros p. unfold NewContext, jsapi_do, mbind, M_bind, primitive, store,
    register, mret, M_ret. subst p.
  destruct (JSAPI_NewContext (engine w)) as [p e]. cbn.
  do 2 eexists. split; [reflexivity|]. cbn.
  split; [apply not_elem_of_dom, is_fresh|].
  split; [apply (lookup_insert_eq (M:=gmap positive))|].
  split; [apply lookup_insert_eq|].
  split; [|split; [|reflexivity]].
  - intros cx' Hne. apply lookup_insert_ne. congruence.
  - intros h Hne. apply lookup_insert_ne. congruence.
Qed.

Lemma NewContext_valid (w : World) :
  exists cx w',
    NewContext w = Ok cx w'
    /\ heap w' !! cx
       = Some {| ptr := (JSAPI_NewContext (engine w)).1; objs := ∅;
                 funcs := ∅; Valid := true; errs := None |}.
Proof.
  unfold NewContext, jsapi_do, mbind, M_bind, primitive, store, register,
    mret, M_ret.
  destruct (JSAPI_NewContext (engine w)) as [p e]. cbn.
  do 2 eexists. split; [reflexivity|].
  apply (lookup_insert_eq (M:=gmap positive)).
Qed.

Lemma Destroy_invalid (w : World) (cx : addr) (c : Context) :
  heap w !! cx = Some c -> Valid c = false -> Destroy cx w = Ok () w.
Proof.
  intros Hh Hv. unfold Destroy, mbind, M_bind, load. rewrite Hh, Hv.
  reflexivity.
Qed.

(** X6: a context made by [NewContext] and destroyed once is invalid and
    its handle is cleared; every later [Exec], [Eval], [DefineObject] on
    it is the fatal "destroyed Context" panic, and a later [Destroy]
    does nothing. *)
Theorem use_after_Destroy (w : World) :
  exists cx w1 w2,
    NewContext w = Ok cx w1
    /\ Destroy cx w1 = Ok () w2
    /\ (exists c2, heap w2 !! cx = Some c2 /\ Valid c2 = false /\ ptr c2 = 0%N)
    /\ (forall source, Exec cx source w2 = Fatal destroyed w2)
    /\ (forall source, Eval cx source w2 = Fatal destroyed w2)
    /\ (forall name proxy,
          returned (DefineObject cx name proxy w2) = Panic destroyed)
    /\ Destroy cx w2 = Ok () w2.
Proof.
  destruct (NewContext_valid w) as (cx & w1 & Hn & Hh1).
  destruct (Destroy_valid w1 cx _ Hh1 eq_refl) as (w2 & Hd & _ & _ & Hh2).
  exists cx, w1, w2. split; [exact Hn|]. split; [exact Hd|].
  split; [eexists; split; [exact Hh2|split; reflexivity]|].
  split; [intros source; exact (do_destroyed _ _ _ _ Hh2 eq_refl)|].
  split; [intros source; exact (do_destroyed _ _ _ _ Hh2 eq_refl)|].
  split.
  - intros name proxy. unfold DefineObject, defineObject.
    unfold mbind at 1, M_bind at 1, new_object at 1.
    unfold mbind at 1, M_bind at 1.
    erewrite do_destroyed; [reflexivity|cbn; exact Hh2|reflexivity].
  - exact (Destroy_invalid w2 cx _ Hh2 eq_refl).
Qed.

(** X7: [Destroy] of one context leaves every other context, the
    registry, the objects and the host memory as they were. *)
Theorem Destroy_leaves_the_others (w w' : World) (cx : addr) :
  Destroy cx w = Ok () w' ->
  (forall cx', cx' <> cx -> heap w' !! cx' = heap w !! cx')
  /\ contexts w' = contexts w
  /\ objects w' = objects w
  /\ mem w' = mem w.
Proof.
  intros Hd. destruct (heap w !! cx) as [c|] eqn:Hh.
  - destruct (Valid c) eqn:Hv.
    + revert Hd. unfold Destroy. unfold mbind at 1, M_bind at 1, load at 1.
      rewrite Hh, Hv. rewrite (do_valid _ _ _ _ Hh Hv).
      unfold mbind, M_bind, load, primitive, store. rewrite Hh. cbn.
      intros [= <-]. cbn. repeat split.
      intros cx' Hne. apply lookup_insert_ne. congruence.
    + rewrite (Destroy_invalid w cx c Hh Hv) in Hd.
      injection Hd as <-. repeat split.
  - revert Hd. unfold Destroy, mbind, M_bind, load. rewrite Hh. discriminate.
Qed.

(** ** Definitions and dispatch *)

(** What a successful [defineFunction] has done. *)
Lemma defineFunction_ok (w w' : World) (cx : addr) (c : Context)
  (name : string) (fun_ : option reflect.rvalue) (id : N) (f : Func) :
  heap w !! cx = Some c ->
  defineFunction cx name fun_ id w = Ok f w' ->
  exists f0,
    NewFunc fun_ = Return f0
    /\ f = {| Func_Name := name; Func_v := Func_v f0; Func_t := Func_t f0 |}
    /\ Valid c = true
    /\ JSAPI_DefineFunction (ptr c) id name (engine w) = (JSAPI_OK, engine w')
    /\ contexts w' = contexts w /\ heap w' = heap w
    /\ objects w' = objects w /\ mem w' = mem w.
Proof.
  intros Hh. unfold defineFunction. unfold mbind at 1, M_bind at 1, lift at 1.
  destruct (NewFunc fun_) as [f0|r]; [|discriminate].
  destruct (Valid c) eqn:Hv.
  2:{ rewrite (do_destroyed _ _ _ _ Hh Hv). discriminate. }
  rewrite (do_valid _ _ _ _ Hh Hv).
  unfold mbind, M_bind, load, primitive, panic. rewrite Hh.
  destruct (JSAPI_DefineFunction _ _ _ _) as [st e]. cbn.
  destruct st; cbn; [|discriminate].
  intros [= <- <-]. exists f0. cbn. repeat split.
Qed.

(** X8: after a successful [DefineFunction] the function is bound under
    its name in the context, beside the functions bound before under
    other names and in place of one bound before under the same name; the
    engine's callback for that name on the global object is the call of
    the new binding, and its answer for any other name is what it was. *)
Theorem DefineFunction_then_callback (w w' : World) (cx : addr)
  (c : Context) (name : string) (fun_ : option reflect.rvalue) (f : Func) :
  heap w !! cx = Some c ->
  DefineFunction cx name fun_ w = Ok f w' ->
  Func_Name f = name
  /\ (exists c', heap w' !! cx = Some c'
                 /\ funcs c' = <[name := f]> (funcs c)
                 /\ Valid c' = true /\ objs c' = objs c)
  /\ contexts w' = contexts w
  /\ (forall h json, contexts w !! h = Some cx ->
        callback h (context_o h) name json w' = answer (Call f json) w')
  /\ (forall h other json, other <> name -> contexts w !! h = Some cx ->
        returned (callback h (context_o h) other json w')
        = returned (callback h (context_o h) other json w)).
Proof.
  intros Hh. unfold DefineFunction. unfold mbind at 1, M_bind at 1.
  destruct (defineFunction cx name fun_ 0 w) as [f1 w1|r w1] eqn:Hd;
    [|discriminate].
  destruct (defineFunction_ok _ _ _ _ _ _ _ _ Hh Hd)
    as (f0 & _ & Hf & Hv & _ & Hcs & Hhp & _ & _).
  unfold mbind, M_bind, load, store, mret, M_ret. rewrite Hhp, Hh.
  intros [= <- <-]. subst f1. cbn.
  split; [reflexivity|]. split.
  { eexists. split; [apply (lookup_insert_eq (M:=gmap positive))|].
    cbn. repeat split. exact Hv. }
  split; [exact Hcs|]. split.
  - intros h json Hc. unfold callback, get_contexts, mbind, M_bind, load.
    simpl. rewrite Hcs, Hc. simpl.
    rewrite (lookup_insert_eq (M:=gmap positive)).
    destruct (decide _) as [_|Hn]; [|contradiction]. simpl.
    rewrite (lookup_insert_eq (M:=gmap string)). reflexivity.
  - intros h other json Hne Hc.
    unfold callback, get_contexts, mbind, M_bind, load.
    simpl. rewrite Hcs, Hc, Hh. simpl.
    rewrite (lookup_insert_eq (M:=gmap positive)).
    destruct (decide _) as [_|Hn]; [|contradiction]. simpl.
    rewrite lookup_insert_ne by congruence.
    destruct (funcs c !! other) as [g|]; [|reflexivity].
    unfold answer. destruct (Call g json) as [out [err|]]; [|reflexivity].
    unfold mbind, M_bind, lift. destruct (Error err); reflexivity.
Qed.

(** X9: [DefineObject] without a proxy on a valid context makes a new,
    empty object, gives it the handle the engine returns and records it
    in the context under that handle; a property callback on it finds no
    property. *)
Theorem DefineObject_without_proxy (w : World) (cx : addr) (c : Context)
  (name : string) :
  heap w !! cx = Some c -> Valid c = true ->
  let oid := (JSAPI_DefineObject (ptr c) 0 name (engine w)).1 in
  exists o w',
    DefineObject cx name None w = Ok o w'
    /\ objects w !! o = None
    /\ objects w' !! o
       = Some {| Object_id := oid; Object_cx := cx; Object_funcs := ∅;
                 Object_props := ∅; Object_proxy := None |}
    /\ heap w' !! cx = Some (with_objs c (<[oid := o]> (objs c)))
    /\ contexts w' = contexts w
    /\ (forall h prop_name, contexts w !! h = Some cx ->
          getprop h oid prop_name w'
          = Ok (0%Z, "attempt to get property that doesn't appear to exist") w').
Proof.
  intros Hh Hv oid. subst oid. unfold DefineObject, defineObject.
  unfold mbind at 1, M_bind at 1, new_object at 1.
  unfold mbind at 1, M_bind at 1.
  erewrite do_valid; [|cbn; exact Hh|exact Hv].
  unfold mbind, M_bind, load, primitive, load_object, store_object, store,
    mret, M_ret. cbn. rewrite Hh.
  destruct (JSAPI_DefineObject _ _ _ _) as [oid e]. cbn.
  rewrite (lookup_insert_eq (M:=gmap positive)). cbn.
  do 2 eexists. split; [reflexivity|]. cbn.
  split; [apply not_elem_of_dom, is_fresh|].
  split; [rewrite insert_insert_eq; apply (lookup_insert_eq (M:=gmap positive))|].
  split; [apply (lookup_insert_eq (M:=gmap positive))|].
  split; [reflexivity|].
  intros h pn Hc. unfold getprop, get_contexts, mbind, M_bind, load,
    load_object. simpl. rewrite Hc. simpl.
  rewrite (lookup_insert_eq (M:=gmap positive)). simpl.
  rewrite (lookup_insert_eq (M:=gmap N)). simpl.
  rewrite (lookup_insert_eq (M:=gmap positive)). simpl.
  rewrite lookup_empty. reflexivity.
Qed.

(** X10: after a successful [DefineFunction] on an object the function
    is bound under its name in that object, the engine having been asked
    to define it under the object's handle; the engine's callback for
    that name on that handle is the call of the new binding. *)
Theorem Object_DefineFunction_then_callback (w w' : World) (o : addr)
  (ob : Object) (c : Context) (name : string)
  (fun_ : option reflect.rvalue) (f : Func) :
  objects w !! o = Some ob ->
  heap w !! Object_cx ob = Some c ->
  Object_DefineFunction o name fun_ w = Ok f w' ->
  Func_Name f = name
  /\ JSAPI_DefineFunction (ptr c) (Object_id ob) name (engine w)
     = (JSAPI_OK, engine w')
  /\ (exists ob', objects w' !! o = Some ob'
                  /\ Object_funcs ob' = <[name := f]> (Object_funcs ob)
                  /\ Object_id ob' = Object_id ob
                  /\ Object_props ob' = Object_props ob)
  /\ (forall h json,
        contexts w !! h = Some (Object_cx ob) ->
        objs c !! Object_id ob = Some o ->
        Object_id ob <> context_o h ->
        callback h (Object_id ob) name json w' = answer (Call f json) w').
Proof.
  intros Ho Hh. unfold Object_DefineFunction.
  unfold mbind at 1, M_bind at 1, load_object at 1. rewrite Ho.
  unfold mbind at 1, M_bind at 1.
  destruct (defineFunction _ _ _ _ w) as [f1 w1|r w1] eqn:Hd; [|discriminate].
  destruct (defineFunction_ok _ _ _ _ _ _ _ _ Hh Hd)
    as (f0 & _ & Hf & Hv & Hst & Hcs & Hhp & Hob & _).
  unfold mbind, M_bind, load_object, store_object, mret, M_ret.
  rewrite Hob, Ho. intros [= <- <-]. subst f1. simpl.
  split; [reflexivity|]. split; [exact Hst|]. split.
  { eexists. split; [apply (lookup_insert_eq (M:=gmap positive))|].
    simpl. repeat split. }
  intros h json Hc Hobj Hne.
  unfold callback, get_contexts, mbind, M_bind, load, load_object.
  simpl. rewrite Hcs, Hc. simpl. rewrite Hhp, Hh.
  destruct (decide _) as [He|_]; [contradiction|].
  rewrite Hobj. simpl. rewrite (lookup_insert_eq (M:=gmap positive)). simpl.
  rewrite (lookup_insert_eq (M:=gmap string)). reflexivity.
Qed.

(** The loop over the fields, when it ends well, has bound each field. *)
Lemma define_props_ok (cx o : addr) (s : reflect.rvalue)
  (fields : list (reflect.StructField reflect.rtype)) :
  forall (i : nat) (w w' : World) (ob : Object),
    objects w !! o = Some ob ->
    define_props cx o (Some s) i fields w = Ok () w' ->
    exists ob',
      objects w' !! o = Some ob'
      /\ Object_props ob' = props_of s i fields (Object_props ob)
      /\ Object_id ob' = Object_id ob
      /\ Object_funcs ob' = Object_funcs ob
      /\ Object_proxy ob' = Object_proxy ob
      /\ Object_cx ob' = Object_cx ob
      /\ heap w' = heap w /\ contexts w' = contexts w /\ mem w' = mem w.
Proof.
  induction fields as [|f rest IH]; intros i w w' ob Ho; simpl.
  - intros [= <-]. exists ob. repeat split. exact Ho.
  - unfold mbind, M_bind, lift, load_object, store_object, load, primitive,
      panic. simpl. rewrite Ho. simpl.
    destruct (heap w !! cx) as [c|]; [|discriminate]. simpl.
    destruct (JSAPI_DefineProperty _ _ _ _) as [st e]. simpl.
    destruct st; simpl; [|discriminate].
    intros Hd. eapply IH in Hd; [|simpl; apply (lookup_insert_eq (M:=gmap positive))].
    destruct Hd as (ob' & Ho' & Hp & Hid & Hfs & Hpx & Hcx & Hhp & Hcs & Hm).
    exists ob'. simpl in *. repeat split; assumption.
Qed.

(** With distinct field names, [props_of] holds each field under its
    name. *)
Lemma props_of_lookup (s : reflect.rvalue)
  (fields : list (reflect.StructField reflect.rtype)) :
  forall (i : nat) (props : gmap string prop),
    NoDup (map reflect.Name fields) ->
    (forall k, ~ List.In k (map reflect.Name fields) ->
       props_of s i fields props !! k = props !! k)
    /\ (forall j f, fields !! j = Some f ->
          props_of s i fields props !! reflect.Name f
          = Some {| prop_name := reflect.Name f;
                    prop_v := reflect.Value_Field s (i + j);
                    prop_t := reflect.Type_ f |}).
Proof.
  induction fields as [|f0 rest IH]; intros i props Hnd.
  - split; [reflexivity|]. intros j f Hj. rewrite lookup_nil in Hj.
    discriminate.
  - cbn [map] in Hnd. apply NoDup_cons in Hnd as [Hnotin Hnd].
    cbn [props_of].
    destruct (IH (S i) (<[reflect.Name f0 :=
        {| prop_name := reflect.Name f0; prop_v := reflect.Value_Field s i;
           prop_t := reflect.Type_ f0 |}]> props) Hnd) as [Hout Hin].
    split.
    + intros k Hk. rewrite Hout.
      * apply lookup_insert_ne. intros Heq. apply Hk. left. exact Heq.
      * intros Hx. apply Hk. right. exact Hx.
    + intros [|j] f Hj.
      * cbn in Hj. injection Hj as <-. rewrite Hout.
        -- rewrite Nat.add_0_r. apply lookup_insert_eq.
        -- intros Hk. apply Hnotin. apply list_elem_of_In. exact Hk.
      * cbn in Hj. rewrite (Hin j f Hj).
        replace (i + S j)%nat with (S i + j)%nat by lia. reflexivity.
Qed.

(** X11: a successful [defineObject] with a proxy has found a struct,
    directly or behind the pointer, keeps the proxy in the object, and
    has bound every field of the struct: a struct with distinct field
    names has, under each field's name, the property with that name, the
    reflected field and the field's type. *)
Theorem defineObject_binds_the_fields (w w' : World) (cx o : addr)
  (name : string) (p : reflect.rvalue) (id : N) :
  defineObject cx name (Some p) id w = Ok o w' ->
  exists s ob,
    Indirect (Some p) = Some s
    /\ reflect.Type_Kind (reflect.Value_Type s) = reflect.Struct
    /\ objects w' !! o = Some ob
    /\ Object_proxy ob = Some p
    /\ Object_cx ob = cx
    /\ Object_props ob
       = props_of s 0 (reflect.Type_Fields (reflect.Value_Type s)) ∅
    /\ (NoDup (map reflect.Name (reflect.Type_Fields (reflect.Value_Type s))) ->
        forall j f,
          reflect.Type_Fields (reflect.Value_Type s) !! j = Some f ->
          Object_props ob !! reflect.Name f
          = Some {| prop_name := reflect.Name f;
                    prop_v := reflect.Value_Field s j;
                    prop_t := reflect.Type_ f |}).
Proof.
  unfold defineObject.
  unfold mbind at 1, M_bind at 1, new_object at 1.
  unfold mbind at 1, M_bind at 1.
  set (o0 := fresh (dom (objects w))).
  match goal with
  | |- context [do cx ?fn ?ww] => set (body := fn); set (w1 := ww)
  end.
  destruct (heap w !! cx) as [c|] eqn:Hh.
  2:{ unfold do, mbind, M_bind, load. subst w1. simpl. rewrite Hh.
      discriminate. }
  destruct (Valid c) eqn:Hv.
  2:{ erewrite do_destroyed; [discriminate|subst w1; simpl; eassumption|
                              assumption]. }
  erewrite do_valid; [|subst w1; simpl; eassumption|assumption].
  subst body. unfold mbind, M_bind, load, primitive, load_object,
    store_object, store, lift, panic, mret, M_ret. subst w1. simpl.
  rewrite Hh.
  destruct (JSAPI_DefineObject _ _ _ _) as [oid e]. simpl.
  repeat (rewrite (lookup_insert_eq (M:=gmap positive)); simpl).
  assert (Hfin : forall s, Indirect (Some p) = Some s ->
    match
      (if negb (bool_decide (reflect.Type_Kind (reflect.Value_Type s)
                             = reflect.Struct))
       then panic "proxy object must be a kind of struct or pointer to a struct"
       else define_props cx o0 (Some s) 0
              (reflect.Type_Fields (reflect.Value_Type s)))
        {| contexts := contexts w;
           heap := <[cx:=with_objs c (<[oid:=o0]> (objs c))]> (heap w);
           objects :=
             <[o0:={| Object_id := oid; Object_cx := cx; Object_funcs := ∅;
                      Object_props := ∅; Object_proxy := Some p |}]>
               (<[o0:={| Object_id := oid; Object_cx := cx;
                         Object_funcs := ∅; Object_props := ∅;
                         Object_proxy := None |}]>
                  (<[o0:={| Object_id := 0; Object_cx := cx;
                            Object_funcs := ∅; Object_props := ∅;
                            Object_proxy := None |}]> (objects w)));
           mem := mem w; engine := e |}
    with
    | Ok _ w'0 => Ok o0 w'0
    | Fatal r w'0 => Fatal r w'0
    end = Ok o w' ->
    exists s0 ob,
      Indirect (Some p) = Some s0
      /\ reflect.Type_Kind (reflect.Value_Type s0) = reflect.Struct
      /\ objects w' !! o = Some ob
      /\ Object_proxy ob = Some p
      /\ Object_cx ob = cx
      /\ Object_props ob
         = props_of s0 0 (reflect.Type_Fields (reflect.Value_Type s0)) ∅
      /\ (NoDup (map reflect.Name
                   (reflect.Type_Fields (reflect.Value_Type s0))) ->
          forall j f,
            reflect.Type_Fields (reflect.Value_Type s0) !! j = Some f ->
            Object_props ob !! reflect.Name f
            = Some {| prop_name := reflect.Name f;
                      prop_v := reflect.Value_Field s0 j;
                      prop_t := reflect.Type_ f |})).
  { intros s Hi.
    destruct (bool_decide (reflect.Type_Kind (reflect.Value_Type s)
                           = reflect.Struct)) eqn:Hk; simpl; [|discriminate].
    apply bool_decide_eq_true_1 in Hk.
    match goal with
    | |- context [define_props ?a ?b ?c ?d ?e ?f] =>
        destruct (define_props a b c d e f) as [[] w2|r w2] eqn:Hd;
          [|discriminate]
    end.
    intros [= <- <-].
    eapply define_props_ok in Hd;
      [|simpl; apply (lookup_insert_eq (M:=gmap positive))].
    destruct Hd as (ob' & Ho' & Hp & Hid & Hfs & Hpx & Hcx & _).
    exists s, ob'. simpl in *.
    split; [exact Hi|]. split; [exact Hk|]. split; [exact Ho'|].
    split; [exact Hpx|]. split.
    - exact Hcx.
    - split; [exact Hp|].
      intros Hnd j f Hj. rewrite Hp.
      apply (proj2 (props_of_lookup s _ 0 ∅ Hnd) j f Hj). }
  destruct (decide (reflect.Type_Kind (reflect.Value_Type p) = reflect.Ptr))
    as [Hk|Hk].
  - rewrite (bool_decide_eq_true_2 _ Hk). simpl.
    pose proof (Indirect_pointer p Hk) as Hip.
    destruct (reflect.Value_Elem p) as [s|] eqn:He.
    + intros Hres. destruct (Hfin s Hip Hres) as (s0 & ob & Hi0 & Hrest).
      exists s0, ob. split; [congruence|exact Hrest].
    + simpl. discriminate.
  - rewrite (bool_decide_eq_false_2 _ Hk).
    assert (Hip : Indirect (Some p) = Some p).
    { unfold Indirect. destruct (decide _) as [Hy|_]; [contradiction|].
      reflexivity. }
    intros Hres. destruct (Hfin p Hip Hres) as (s0 & ob & Hi0 & Hrest).
    exists s0, ob. split; [|exact Hrest].
    unfold Indirect in *. destruct (decide _); [contradiction|exact Hi0].
Qed.

(** ** Properties of a proxied struct *)

(** What a [set] that reports no error has done. *)
Lemma set_ok_get (m m' : Mem) (p : prop) (injson out : string) :
  set m p injson = Return ((out, None), m') ->
  get m' p = Return (out, None).
Proof.
  unfold set. destruct (json.Unmarshal injson) as [err|x]; [discriminate|].
  destruct (cast (ValueOf x) (prop_t p)) as [[xv err]|r]; [|discriminate].
  unfold mbind, outcome_bind.
  destruct (negb (CanSet (prop_v p))); [discriminate|].
  destruct (Set_ m (prop_v p) (prop_t p) xv) as [m1|r]; [|discriminate].
  destruct (get m1 p) as [r1|r] eqn:Hg; [|discriminate].
  intros [= -> <-]. exact Hg.
Qed.

(** X12: a [set] whose JSON decodes and casts to the type of a settable
    field stores the cast value in the field, touches no other field, and
    returns the encoding of the new value, which is what a following
    [get] returns. *)
Theorem set_then_get (m : Mem) (p : prop) (injson : string)
  (x : option reflect.rvalue) (r : reflect.rvalue) :
  json.Unmarshal injson = inr x ->
  cast (ValueOf x) (prop_t p) = Return (Some r, None) ->
  CanSet (prop_v p) = true ->
  let m' : Mem := <[reflect.loc (prop_v p) := r]> m in
  set m p injson
  = Return (marshalled (json.Marshal (reflect.Value_Interface r)), m')
  /\ get m' p = Return (marshalled (json.Marshal (reflect.Value_Interface r)))
  /\ (forall l, l <> reflect.loc (prop_v p) -> m' l = m l).
Proof.
  intros Hd Hc Hs m'.
  destruct (cast_assignable _ _ _ Hc) as (r' & [= <-] & Ha).
  unfold CanSet in Hs. apply andb_true_iff in Hs as [Haddr Hro].
  apply negb_true_iff in Hro.
  assert (Hg : get m' p
               = Return (marshalled (json.Marshal (reflect.Value_Interface r)))).
  { unfold get, Interface. rewrite Hro. unfold mbind, outcome_bind.
    unfold m', insert, fn_insert.
    destruct (decide _) as [_|Hn]; [reflexivity|contradiction]. }
  split; [|split; [exact Hg|]].
  - unfold set. rewrite Hd, Hc. unfold mbind, outcome_bind.
    unfold CanSet, Set_. rewrite Haddr, Hro. simpl. rewrite Ha.
    fold m'. rewrite Hg. reflexivity.
  - intros l Hl. unfold m', insert, fn_insert.
    destruct (decide _) as [He|_]; [congruence|reflexivity].
Qed.

(** X13: a field that cannot be set is never written: whatever the JSON,
    a [set] that returns reports an error and leaves the host memory as
    it was; and the value of a field that is not exported cannot be read:
    [get] panics. *)
Theorem unsettable_field (m : Mem) (p : prop) :
  (CanSet (prop_v p) = false ->
   forall injson res m', set m p injson = Return (res, m') ->
     m' = m /\ exists err, res = ("", Some err))
  /\ (reflect.readonly (prop_v p) = true ->
      get m p
      = Panic "reflect.Value.Interface: cannot return value obtained from unexported field or method").
Proof.
  split.
  - intros Hs injson res m'. unfold set.
    destruct (json.Unmarshal injson) as [err|x].
    + intros [= <- <-]. eauto.
    + destruct (cast (ValueOf x) (prop_t p)) as [[xv err]|r]; [|discriminate].
      unfold mbind, outcome_bind. rewrite Hs. simpl.
      intros [= <- <-]. eauto.
  - intros Hro. unfold get, Interface. rewrite Hro. reflexivity.
Qed.

(** X14: a value a script has set is the value it reads back: when
    [setprop] answers with success and a payload, [getprop] for the same
    property in the state it leaves answers with success and the same
    payload. *)
Theorem setprop_then_getprop (w w' : World) (c id : N) (name json s : string) :
  setprop c id name json w = Ok (1%Z, s) w' ->
  getprop c id name w' = Ok (1%Z, s) w'.
Proof.
  unfold setprop, getprop, get_contexts, get_mem, put_mem.
  unfold mbind, M_bind, load, load_object. simpl.
  destruct (contexts w !! c) as [cxp|] eqn:Hc; [|discriminate].
  destruct (heap w !! cxp) as [cx|] eqn:Hh; [|discriminate]. simpl.
  destruct (objs cx !! id) as [op|] eqn:Ho; [|discriminate].
  destruct (objects w !! op) as [o|] eqn:Hob; [|discriminate]. simpl.
  destruct (Object_props o !! name) as [p|] eqn:Hp; [|discriminate].
  unfold lift.
  destruct (set (mem w) p json) as [[[out err] m']|r] eqn:Hset; [|discriminate].
  simpl. destruct err as [err|].
  - unfold answer, mbind, M_bind, lift.
    destruct (Error err); simpl; discriminate.
  - unfold answer, mret, M_ret. intros [= <- <-]. simpl.
    rewrite Hc. simpl. rewrite Hh. simpl. rewrite Ho. simpl.
    rewrite Hob. simpl. rewrite Hp. simpl.
    rewrite (set_ok_get _ _ _ _ _ Hset). reflexivity.
Qed.

(** ** The caster and the call *)

(** X15: what [cast] returns, when it returns: a value that holds
    something, and either no error and the value's type is assignable to
    the target type, or the error "cannot cast A to B" and the value's
    type is not assignable to it, never a value together with another
    error. *)
Theorem cast_result (v v' : Value) (t : reflect.rtype) (e : option error) :
  cast v t = Return (v', e) ->
  exists r', v' = Some r'
    /\ match e with
       | None => reflect.AssignableTo (reflect.Value_Type r') t = true
       | Some err =>
           reflect.AssignableTo (reflect.Value_Type r') t = false
           /\ err = cannot_cast (reflect.Type_Kind (reflect.Value_Type r'))
                                (reflect.Type_Kind t)
       end.
Proof.
  intros Hc. destruct e as [err|].
  - destruct (cast_error _ _ _ _ Hc) as (r' & -> & Ha & He). eauto.
  - destruct (cast_assignable _ _ _ Hc) as (r' & -> & Ha). eauto.
Qed.

(** X16: [NewFunc] accepts exactly the functions whose parameters all
    have an accepted kind, and the binding it returns holds the function
    and its type under the name "[anon]". *)
Theorem NewFunc_accepts (v : reflect.rvalue) :
  (reflect.Type_Kind (reflect.Value_Type v) = reflect.Func
   /\ Forall (fun ti => acceptable (reflect.Type_Kind ti) = true)
        (reflect.Type_Ins (reflect.Value_Type v)))
  <-> NewFunc (Some v)
      = Return {| Func_Name := "[anon]"; Func_v := Some v;
                  Func_t := reflect.Value_Type v |}.
Proof.
  assert (Hchk : forall ins,
    Forall (fun ti => acceptable (reflect.Type_Kind ti) = true) ins
    <-> check_inargs ins = Return ()).
  { induction ins as [|ti rest IH]; simpl.
    - split; [reflexivity|constructor].
    - destruct (acceptable (reflect.Type_Kind ti)) eqn:Ha.
      + rewrite <- IH. split.
        * intros Hf. inversion Hf. assumption.
        * intros Hf. constructor; assumption.
      + split; [|discriminate]. intros Hf. inversion Hf. congruence. }
  unfold NewFunc, ValueOf. split.
  - intros [Hk Hf]. rewrite (bool_decide_eq_true_2 _ Hk). simpl.
    apply Hchk in Hf. rewrite Hf. reflexivity.
  - destruct (bool_decide _) eqn:Hk; simpl; [|discriminate].
    apply bool_decide_eq_true_1 in Hk.
    destruct (check_inargs _) as [[]|r] eqn:Hc; simpl; [|discriminate].
    intros _. split; [exact Hk|]. apply Hchk. exact Hc.
Qed.

(** Arguments that all cast are values, each assignable to the type of
    its parameter. *)
Lemma cast_inargs_valid (t : reflect.rtype)
  (inargs : list (option reflect.rvalue)) :
  forall (i : Z) (invals : list Value),
    cast_inargs t i inargs = Return (inr invals) ->
    exists xs : list reflect.rvalue,
      invals = map Some xs
      /\ length xs = length inargs
      /\ forall (j : nat) x, xs !! j = Some x ->
           exists ti, param_type t (i + Z.of_nat j)%Z = Return ti
                      /\ reflect.AssignableTo (reflect.Value_Type x) ti = true.
Proof.
  induction inargs as [|a rest IH]; intros i invals; cbn [cast_inargs].
  - intros [= <-]. exists []. split; [reflexivity|]. split; [reflexivity|].
    intros j x Hj. rewrite lookup_nil in Hj. discriminate.
  - change (if reflect.IsVariadic t && bool_decide (i >= NumIn t - 1)%Z
            then tl ← In t (NumIn t - 1)%Z; Elem tl else In t i)
      with (param_type t i).
    destruct (param_type t i) as [ti|] eqn:Hti; cbn [mbind outcome_bind];
      [|discriminate].
    destruct (cast (ValueOf a) ti) as [[v [e|]]|] eqn:Hc; cbn [mbind outcome_bind];
      try discriminate.
    destruct (cast_inargs t (i + 1) rest) as [[e|vs]|] eqn:Hr;
      cbn [mbind outcome_bind]; try discriminate.
    intros [= <-].
    destruct (cast_assignable _ _ _ Hc) as (r' & -> & Ha).
    destruct (IH _ _ Hr) as (xs & -> & Hlen & Hxs).
    exists (r' :: xs). split; [reflexivity|]. split; [cbn; lia|].
    intros [|j] x Hj; cbn in Hj.
    + injection Hj as <-. exists ti. rewrite Z.add_0_r. split; assumption.
    + destruct (Hxs j x Hj) as (tj & Htj & Haj). exists tj.
      replace (i + Z.of_nat (S j))%Z with (i + 1 + Z.of_nat j)%Z by lia.
      split; assumption.
Qed.

Lemma valid_args_Some (xs : list reflect.rvalue) :
  valid_args (map Some xs) = Some xs.
Proof.
  induction xs as [|x xs IH]; cbn; [reflexivity|]. rewrite IH. reflexivity.
Qed.

Lemma check_fixed_ok (targs : list reflect.rtype) :
  forall xs : list reflect.rvalue,
    (forall (j : nat) targ x, targs !! j = Some targ -> xs !! j = Some x ->
       reflect.AssignableTo (reflect.Value_Type x) targ = true) ->
    check_fixed targs xs = Return ().
Proof.
  induction targs as [|targ targs IH]; intros [|x xs] Hall; cbn;
    try reflexivity.
  rewrite (Hall 0%nat targ x eq_refl eq_refl). cbn. apply IH.
  intros j tj xj Ht Hx. exact (Hall (S j) tj xj Ht Hx).
Qed.

Lemma check_rest_ok (elem : reflect.rtype) (xs : list reflect.rvalue) :
  (forall (j : nat) x, xs !! j = Some x ->
     reflect.AssignableTo (reflect.Value_Type x) elem = true) ->
  check_rest elem xs = Return ().
Proof.
  induction xs as [|x xs IH]; intros Hall; cbn; [reflexivity|].
  rewrite (Hall 0%nat x eq_refl). cbn. apply IH.
  intros j xj Hx. exact (Hall (S j) xj Hx).
Qed.

Lemma In_lookup (t : reflect.rtype) (k : Z) (ti : reflect.rtype) :
  In t k = Return ti <->
  (0 <= k < NumIn t)%Z /\ reflect.Type_Ins t !! Z.to_nat k = Some ti.
Proof.
  unfold In. destruct (decide _) as [Hk|Hk].
  - destruct (reflect.Type_Ins t !! Z.to_nat k) as [tk|] eqn:Hl.
    + split; [intros [= <-]; tauto|intros [_ [= <-]]; reflexivity].
    + split; [discriminate|intros [_ [=]]].
  - split; [discriminate|tauto].
Qed.

(** X17: once the arguments of a call have decoded, passed the count
    check and all cast, [reflect.Value.Call] has nothing to refuse: the
    bound function is run on exactly the cast values, as many as were
    sent, and [call] returns the encoding of what it returns or panics
    with what it panics with.  This holds for a function that is not
    variadic and gets as many arguments as it has parameters, and for a
    variadic one that gets at least its fixed parameters. *)
Theorem call_runs_the_function (f : Func) (in_ : string)
  (inargs : list (option reflect.rvalue)) (invals : list Value)
  (fn : reflect.rvalue) :
  Func_v f = Some fn -> reflect.Value_Type fn = Func_t f ->
  json.Unmarshal_slice in_ = inr inargs ->
  cast_inargs (Func_t f) 0 inargs = Return (inr invals) ->
  (reflect.IsVariadic (Func_t f) = false
   /\ Z.of_nat (length inargs) = NumIn (Func_t f)
   \/ reflect.IsVariadic (Func_t f) = true
      /\ (NumIn (Func_t f) - 1 <= Z.of_nat (length inargs))%Z
      /\ exists tl elem,
           reflect.Type_Ins (Func_t f) !! Z.to_nat (NumIn (Func_t f) - 1)
           = Some tl
           /\ reflect.Type_Elem tl = Some elem) ->
  exists xs : list reflect.rvalue,
    invals = map Some xs
    /\ length xs = length inargs
    /\ Value_Call (Some fn) invals = reflect.Value_run fn xs
    /\ call f in_
       = (outvals ← reflect.Value_run fn xs; Return (encode_outvals outvals)).
Proof.
  intros Hfn Hty Hd Hc Hcase.
  destruct (cast_inargs_valid _ _ _ _ Hc) as (xs & -> & Hlen & Hxs).
  exists xs. split; [reflexivity|]. split; [exact Hlen|].
  set (t := Func_t f) in *.
  assert (Hcall : Value_Call (Some fn) (map Some xs) = reflect.Value_run fn xs).
  { unfold Value_Call. rewrite Hty. fold t. rewrite length_map, Hlen.
    rewrite valid_args_Some.
    destruct Hcase as [[Hv Hn]|(Hv & Hn & tl & elem & Htl & Hel)]; rewrite Hv.
    - destruct (decide _) as [Hlt|_]; [lia|]. cbn [negb andb].
      rewrite bool_decide_eq_false_2 by lia.
      rewrite check_fixed_ok; [reflexivity|].
      intros j targ x Ht Hx. apply lookup_take_Some in Ht as [Ht Hj].
      destruct (Hxs j x Hx) as (ti & Hti & Ha). unfold param_type in Hti.
      rewrite Hv in Hti.
      cbn [andb] in Hti. apply In_lookup in Hti as [_ Hti].
      rewrite Z.add_0_l, Nat2Z.id in Hti. congruence.
    - assert (Hpos : (0 < NumIn t)%Z).
      { unfold NumIn. apply lookup_lt_Some in Htl. lia. }
      destruct (decide _) as [Hlt|_]; [lia|]. cbn [negb andb].
      rewrite check_fixed_ok.
      + cbn [mbind outcome_bind].
        assert (HIn : In t (NumIn t - 1) = Return tl).
        { apply In_lookup. split; [lia|exact Htl]. }
        rewrite HIn. cbn [mbind outcome_bind]. unfold Elem. rewrite Hel.
        cbn [mbind outcome_bind].
        rewrite check_rest_ok; [reflexivity|].
        intros j x Hx. rewrite lookup_drop in Hx.
        destruct (Hxs _ x Hx) as (ti & Hti & Ha). unfold param_type in Hti.
        rewrite Hv in Hti.
        rewrite bool_decide_eq_true_2 in Hti by lia. cbn [andb] in Hti.
        rewrite HIn in Hti. cbn [mbind outcome_bind] in Hti.
        unfold Elem in Hti. rewrite Hel in Hti. congruence.
      + intros j targ x Ht Hx. apply lookup_take_Some in Ht as [Ht Hj].
        destruct (Hxs j x Hx) as (ti & Hti & Ha). unfold param_type in Hti.
        rewrite Hv in Hti.
        rewrite bool_decide_eq_false_2 in Hti by lia. cbn [andb] in Hti.
        apply In_lookup in Hti as [_ Hti].
        rewrite Z.add_0_l, Nat2Z.id in Hti. congruence. }
  split; [exact Hcall|].
  unfold call. rewrite Hd. fold t.
  replace (negb _ && negb _) with false.
  2:{ destruct Hcase as [[Hv Hn]|(Hv & _)].
      - rewrite bool_decide_eq_true_2 by exact Hn. reflexivity.
      - rewrite Hv, andb_false_r. reflexivity. }
  rewrite Hc. cbn [mbind outcome_bind]. rewrite Hfn, Hcall. reflexivity.
Qed.

(** ** Evaluation with a result, callbacks without a target, nested objects *)

(** X18: [Eval] on a valid, registered context: when the engine
    evaluates the script and hands back JSON text, [Eval] returns what
    [json.Unmarshal] makes of that text, a decoding error included, and
    changes nothing but the engine; when the engine reports an uncaught
    error under [eval] and fails, [Eval] returns that report and no
    value. *)
Theorem Eval_results (w : World) (cx : addr) (c : Context)
  (source : string) :
  heap w !! cx = Some c -> Valid c = true ->
  contexts w !! ptr c = Some cx ->
  (forall jsonData e,
     JSAPI_EvalJSON (ptr c) source "eval" (engine w)
     = Done (JSAPI_OK, jsonData) e ->
     Eval cx source w
     = Ok match json.Unmarshal jsonData with
          | inl err => (Some err, None)
          | inr x => (None, x)
          end
          {| contexts := contexts w; heap := heap w; objects := objects w;
             mem := mem w; engine := e |})
  /\ (forall line msg jsonData e,
        JSAPI_EvalJSON (ptr c) source "eval" (engine w)
        = Reporter (ptr c) "eval" line msg (Done (JSAPI_FAIL, jsonData) e) ->
        returned (Eval cx source w)
        = Return (Some (ReportError (Some {| Filename := "eval"; Line := line;
                                             Message := msg |})), None)).
Proof.
  intros Hh Hv Hc. split.
  - intros jsonData e Hrun. unfold Eval. rewrite (do_valid _ _ _ _ Hh Hv).
    unfold mbind, M_bind, load, get_engine. rewrite Hh, Hrun. simpl.
    unfold primitive. simpl.
    change (bool_decide (JSAPI_OK = JSAPI_OK)) with true. simpl.
    destruct (json.Unmarshal jsonData); reflexivity.
  - intros line msg jsonData e Hrun. unfold Eval.
    rewrite (do_valid _ _ _ _ Hh Hv).
    unfold mbind, M_bind, load, get_engine. rewrite Hh, Hrun. simpl.
    unfold reporter, get_contexts. unfold mbind, M_bind. rewrite Hc.
    unfold setError, mbind, M_bind, load, store. rewrite Hh. simpl.
    change (bool_decide (JSAPI_FAIL = JSAPI_OK)) with false. simpl.
    unfold getError, mbind, M_bind, load, store. simpl.
    rewrite (lookup_insert_eq (M:=gmap positive)). simpl.
    rewrite (lookup_insert_eq (M:=gmap string)). reflexivity.
Qed.

(** X19: a callback that finds no target answers with flag 0 and the
    message for what is missing, and changes nothing: a handle that is
    not registered, a global function that is not bound, an object that
    the context does not hold; and [reporter] with a handle that is not
    registered records nothing. *)
Theorem callbacks_without_target (w : World) (c id : N) (name json : string) :
  (contexts w !! c = None ->
   callback c id name json w
   = Ok (0%Z, "attempt to use context after destroyed") w
   /\ getprop c id name w
      = Ok (0%Z, "attempt to use context after destroyed") w
   /\ setprop c id name json w
      = Ok (0%Z, "attempt to use context after destroyed") w
   /\ forall line msg, reporter c name line msg w = Ok () w)
  /\ (forall cxp cx, contexts w !! c = Some cxp -> heap w !! cxp = Some cx ->
        (id = context_o c -> funcs cx !! name = None ->
         callback c id name json w
         = Ok (0%Z, "attempt to use global func that doesn't appear to exist") w)
        /\ (id <> context_o c -> objs cx !! id = None ->
            callback c id name json w
            = Ok (0%Z, "attempt to use global object that doesn't appear to exist") w)
        /\ (objs cx !! id = None ->
            getprop c id name w
            = Ok (0%Z, "attempt to use object that doesn't appear to exist") w
            /\ setprop c id name json w
               = Ok (0%Z, "attempt to use object that doesn't appear to exist") w)).
Proof.
  split.
  - intros Hc. unfold callback, getprop, setprop, reporter, get_contexts,
      mbind, M_bind. rewrite Hc. repeat split.
  - intros cxp cx Hc Hh. unfold callback, getprop, setprop, get_contexts,
      mbind, M_bind, load. rewrite Hc, Hh. split; [|split].
    + intros -> Hf. destruct (decide _) as [_|Hn]; [|contradiction].
      rewrite Hf. reflexivity.
    + intros Hne Ho. destruct (decide _) as [He|_]; [contradiction|].
      rewrite Ho. reflexivity.
    + intros Ho. rewrite Ho. split; reflexivity.
Qed.

(** X20: [DefineObject] on an object, without a proxy: the new object is
    defined in the engine under the parent's handle, belongs to the
    parent's context and is recorded there under its own handle; the
    parent is not changed. *)
Theorem Object_DefineObject_without_proxy (w : World) (parent : addr)
  (pob : Object) (c : Context) (name : string) :
  objects w !! parent = Some pob ->
  heap w !! Object_cx pob = Some c -> Valid c = true ->
  let r := JSAPI_DefineObject (ptr c) (Object_id pob) name (engine w) in
  exists o w',
    Object_DefineObject parent name None w = Ok o w'
    /\ o <> parent
    /\ objects w' !! o
       = Some {| Object_id := r.1; Object_cx := Object_cx pob;
                 Object_funcs := ∅; Object_props := ∅;
                 Object_proxy := None |}
    /\ objects w' !! parent = Some pob
    /\ heap w' !! Object_cx pob = Some (with_objs c (<[r.1 := o]> (objs c)))
    /\ engine w' = r.2.
Proof.
  intros Ho Hh Hv r. subst r. unfold Object_DefineObject.
  unfold mbind at 1, M_bind at 1, load_object at 1. rewrite Ho.
  unfold defineObject.
  unfold mbind at 1, M_bind at 1, new_object at 1.
  unfold mbind at 1, M_bind at 1.
  erewrite do_valid; [|simpl; exact Hh|exact Hv].
  unfold mbind, M_bind, load, primitive, load_object, store_object, store,
    mret, M_ret. simpl. rewrite Hh.
  destruct (JSAPI_DefineObject _ _ _ _) as [oid e]. simpl.
  rewrite (lookup_insert_eq (M:=gmap positive)). simpl.
  assert (Hfresh : fresh (dom (objects w)) <> parent).
  { intros Heq. apply (is_fresh (dom (objects w))). rewrite Heq.
    apply elem_of_dom. eauto. }
  do 2 eexists. split; [reflexivity|]. simpl.
  split; [exact Hfresh|].
  split; [rewrite insert_insert_eq; apply (lookup_insert_eq (M:=gmap positive))|].
  split; [rewrite !lookup_insert_ne by exact Hfresh; exact Ho|].
  split; [apply (lookup_insert_eq (M:=gmap positive))|reflexivity].
Qed.

End Coverage.

(** * The host program at work *)

Import Fixture.

(** An address that holds a context holds [context_at]. *)
Lemma context_at_lookup (w : World) (cx : addr) :
  bool_decide (is_Some (heap w !! cx)) = true ->
  heap w !! cx = Some (context_at w cx).
Proof.
  intros Hs. apply bool_decide_eq_true_1 in Hs. destruct Hs as [c Hc].
  unfold context_at. rewrite Hc. reflexivity.
Qed.

(** C1: after [Destroy] has completed on a valid context, the engine
    instance is torn down and the context is marked invalid, and the
    context is still registered in [contexts]: a callback with its handle
    is dispatched to the bound function, and a property callback goes on
    to look for the object; none answers "attempt to use context after
    destroyed". *)
Theorem callbacks_after_Destroy :
  let w := state destroyed_context in
  returned destroyed_context = Return ()
  /\ (Valid <$> heap w !! 1%positive) = Some false
  /\ engine w = [NewContext_call; DefineFunction_call 1 0 "add";
                 DefineFunction_call 1 0 "raise"; DestroyContext_call 1]
  /\ contexts w !! 1%N = Some 1%positive
  /\ returned (callback 1 1 "add" "[1,2]" w) = Return (1%Z, "3")
  /\ returned (getprop 1 4 "Age" w)
     = Return (0%Z, "attempt to use object that doesn't appear to exist")
  /\ returned (setprop 1 4 "Age" "25" w)
     = Return (0%Z, "attempt to use object that doesn't appear to exist").
Proof. vm_compute. repeat split; reflexivity. Qed.

(** C2: a failing [Exec] that finds its report in the fatal bucket returns
    it and leaves it in the sink, where the next failing call finds it
    again; and a failing [Exec] that finds no report returns an error
    that holds a nil [*ErrorReport], not the "no error report found"
    error, and whose [Error] method panics. *)
Theorem Exec_error_reports :
  let oom := {| Filename := "__fatal__"; Line := 0;
                Message := "out of memory" |} in
  let first := after running (fun cx => Exec cx "oom()") in
  let second := after running (fun cx => _ ← Exec cx "oom()"; Exec cx "lost()") in
  let lost := after running (fun cx => Exec cx "lost()") in
  returned first = Return (Some (ReportError (Some oom)))
  /\ (heap (state first) !! 1%positive
        ≫= fun c => errs_lookup (errs c) "__fatal__") = Some oom
  /\ returned second = Return (Some (ReportError (Some oom)))
  /\ returned lost = Return (Some (ReportError None))
  /\ returned lost
     <> Return (Some (ErrorString
          "Failed to exec javascript and no error report found"))
  /\ Error (ReportError None)
     = Panic "runtime error: invalid memory address or nil pointer dereference".
Proof. vm_compute. repeat split; try reflexivity. discriminate. Qed.

(** C4: setting the [int] property [Age] to the JSON value [true]: the
    cast fails with "cannot cast bool to int", [set] drops that error and
    assigns, and [reflect] panics; nothing recovers the panic in
    [setprop]. *)
Theorem set_drops_cast_error :
  cast (ValueOf (Some (bool_v true))) int_t
  = Return (Some (bool_v true), Some (ErrorString "cannot cast bool to int"))
  /\ set (mem start) Age "true"
     = Panic "reflect.Set: value of type bool is not assignable to type int"
  /\ returned (setprop 1 4 "Age" "true" (state with_person))
     = Panic "reflect.Set: value of type bool is not assignable to type int"
  /\ returned (setprop 1 4 "Age" "25" (state with_person))
     = Return (1%Z, "25").
Proof. vm_compute. repeat split; reflexivity. Qed.

(** The zero Value is not cast: [cast] panics on it. *)
Lemma cast_zero_Value_panics :
  cast (ValueOf None) int_t
  = Panic "reflect: call of reflect.Value.Type on zero Value"
  /\ forall res, cast (ValueOf None) int_t <> Return res.
Proof. split; [reflexivity|]. intros res. discriminate. Qed.

(** A variadic function with one fixed parameter, called with no
    argument: no arity error, the invocation panics. *)
Lemma short_variadic_call :
  reflect.IsVariadic (Func_t (bound "join" join)) = true
  /\ json.Unmarshal_slice "[]" = inr []
  /\ call (bound "join" join) "[]"
     = Panic "reflect: Call with too few input arguments"
  /\ Call (bound "join" join) "[]"
     = ("", Some (ErrorString
          "join: reflect: Call with too few input arguments"))
  /\ Call (bound "join" join) "[]"
     <> ("", Some (invalid_number_of_arguments 2 0))
  /\ Call (bound "join" join) "[]"
     <> ("", Some (invalid_number_of_arguments 1 0)).
Proof. vm_compute. repeat split; try reflexivity; discriminate. Qed.

(** [cast_of_valid_value] on a decoded number cast to [int]. *)
Lemma cast_of_valid_value_witness :
  cast (Some (float64_v 1)) int_t
  = Return (Some (converted (float64_v 1) int_t), None).
Proof.
  exact (cast_of_valid_value (float64_v 1) (float64_v 1) int_t eq_refl).
Defined.

(** [call_arity] on [add] called with one argument and on [join] called
    with none. *)
Lemma call_arity_witness :
  call (bound "add" add) "[1]"
  = Return ("", Some (ErrorString
      "Invalid number of arguments: expected 2 got 1"))
  /\ Call (bound "join" join) "[]"
     = ("", Some (ErrorString
          "join: reflect: Call with too few input arguments")).
Proof.
  split.
  - refine (proj1 (call_arity (bound "add" add) "[1]" [Some (float64_v 1)]
                     eq_refl) eq_refl _).
    vm_compute. discriminate.
  - exact (proj2 (proj2 (call_arity (bound "join" join) "[]" [] eq_refl))
             eq_refl eq_refl (func_v join) [] eq_refl eq_refl eq_refl).
Defined.

(** [Call_recovers_panic] on [raise(25)]. *)
Lemma Call_recovers_panic_witness :
  Call (bound "raise" raise) "[25]" = ("", Some (ErrorString "raise: 25"))
  /\ returned (callback 1 1 "raise" "[25]" (state running))
     = Return (0%Z, "raise: 25")
  /\ returned (after running (fun cx =>
       _ ← Exec cx "raise(25)"; Exec cx "1+1")) = Return None.
Proof.
  pose proof (Call_recovers_panic (bound "raise" raise) "[25]" "25" eq_refl)
    as [HC Hcb].
  split; [exact HC|]. split; [|vm_compute; reflexivity].
  destruct (Hcb (state running) 1%N 1%N "raise" 1%positive
              (context_at (state running) 1%positive)) as [-> _].
  - vm_compute. reflexivity.
  - apply context_at_lookup. vm_compute. reflexivity.
  - vm_compute. reflexivity.
  - left. split; [reflexivity|]. vm_compute. reflexivity.
  - reflexivity.
Defined.

(** [call_encodes_results] on [pair], which returns two values. *)
Lemma call_encodes_results_witness :
  Call (bound "pair" pair) "[]" = ("[7,true]", None).
Proof.
  exact (call_encodes_results (bound "pair" pair) "[]" [] []
           [int_v 7; bool_v true] eq_refl (or_introl eq_refl) eq_refl eq_refl).
Defined.



(** [Destroy_idempotent] on the host's context after [Destroy]. *)
Lemma Destroy_idempotent_witness :
  let w := state destroyed_context in
  Valid (context_at w 1%positive) = false
  /\ Destroy 1%positive w = Ok () w.
Proof.
  intros w.
  assert (Hh : heap w !! 1%positive = Some (context_at w 1%positive)).
  { apply context_at_lookup. vm_compute. reflexivity. }
  assert (Hv : Valid (context_at w 1%positive) = false).
  { vm_compute. reflexivity. }
  split; [exact Hv|].
  exact (proj1 (Destroy_idempotent w 1%positive _ Hh) Hv).
Defined.

(** * The further properties at work *)

(** A computation that returned has returned in the state it left. *)
Lemma returned_Ok {A} (r : result A) (a : A) :
  returned r = Return a -> r = Ok a (state r).
Proof. destruct r as [a' w|m w]; cbn; [intros [= ->]; reflexivity|discriminate]. Qed.

Lemma object_at_lookup (w : World) (o : addr) :
  bool_decide (is_Some (objects w !! o)) = true ->
  objects w !! o = Some (object_at w o).
Proof.
  intros Hs. apply bool_decide_eq_true_1 in Hs. destruct Hs as [ob Ho].
  unfold object_at. rewrite Ho. reflexivity.
Qed.

(** [setError_then_getError] on the host's context. *)
Lemma setError_then_getError_witness :
  let w := state running in
  exists w1 w2,
    setError 1%positive "lib.js" 7 "boom" w = Ok () w1
    /\ getError 1%positive "lib.js" w1
       = Ok (Some {| Filename := "lib.js"; Line := 7; Message := "boom" |}) w2.
Proof.
  intros w.
  destruct (setError_then_getError w 1%positive (context_at w 1%positive)
              "lib.js" 7 "boom") as (w1 & w2 & c2 & H1 & H2 & _).
  - apply context_at_lookup. vm_compute. reflexivity.
  - exists w1, w2. split; assumption.
Defined.

(** [Exec_returns_the_report] on a script that throws. *)
Lemma Exec_returns_the_report_witness :
  let w := state running in
  returned (Exec 1%positive "throw new Error('ERROR1');" w)
  = Return (Some (ReportError (Some {| Filename := "eval"; Line := 1;
                                       Message := "Error: ERROR1" |}))).
Proof.
  intros w.
  destruct (Exec_returns_the_report w 1%positive (context_at w 1%positive)
              "throw new Error('ERROR1');" 1 "Error: ERROR1"
              [NewContext_call; DefineFunction_call 1 0 "add";
               DefineFunction_call 1 0 "raise";
               Eval_call 1 "throw new Error('ERROR1');"])
    as (w' & c' & HE & _).
  - apply context_at_lookup. vm_compute. reflexivity.
  - vm_compute. reflexivity.
  - vm_compute. reflexivity.
  - vm_compute. reflexivity.
  - exact (f_equal returned HE).
Defined.

(** [Exec_loses_a_foreign_report] on the engine that reports under the
    name of a library file. *)
Lemma Exec_loses_a_foreign_report_witness :
  exists w' c',
    Exec (En := En_lib) 1%positive "lib()" lib_process
    = Ok (Some (ReportError None)) w'
    /\ heap w' !! 1%positive = Some c'
    /\ errs_lookup (errs c') "lib.js"
       = Some {| Filename := "lib.js"; Line := 3; Message := "Error: LIB" |}.
Proof.
  apply (Exec_loses_a_foreign_report (En := En_lib) lib_process 1%positive
           lib_context "lib()" "lib.js" 3 "Error: LIB"
           [NewContext_call; Eval_call 1 "lib()"]).
  - reflexivity.
  - reflexivity.
  - reflexivity.
  - vm_compute. discriminate.
  - vm_compute. discriminate.
  - reflexivity.
  - reflexivity.
  - reflexivity.
Defined.

(** [Exec_of_files] on a file that does not exist, on the destroyed
    context. *)
Lemma Exec_of_files_witness :
  let w := state destroyed_context in
  ExecFile 1%positive "jsapi_test2.js" w
  = Ok (Some (ErrorString "open: no such file or directory")) w.
Proof.
  intros w.
  exact (proj1 (Exec_of_files w 1%positive) "jsapi_test2.js" _ eq_refl).
Defined.

(** [Destroy_leaves_the_others] on the first of two contexts. *)
Lemma Destroy_leaves_the_others_witness :
  let w := state two_contexts in
  let w' := state (Destroy 1%positive w) in
  heap w' !! 2%positive = heap w !! 2%positive
  /\ contexts w' = contexts w.
Proof.
  intros w w'.
  assert (Hr : returned (Destroy 1%positive w) = Return ()).
  { vm_compute. reflexivity. }
  destruct (Destroy_leaves_the_others w w' 1%positive
              (returned_Ok _ _ Hr)) as (Hh & Hc & _).
  split; [apply Hh; discriminate|exact Hc].
Defined.

(** [DefineFunction_then_callback] on [join]. *)
Lemma DefineFunction_then_callback_witness :
  let w := state running in
  let w' := state (DefineFunction 1%positive "join" (Some (func_v join)) w) in
  callback 1 (context_o 1) "join" "[1,2]" w'
  = answer (Call (bound "join" join) "[1,2]") w'.
Proof.
  intros w w'.
  assert (Hr : returned (DefineFunction 1%positive "join"
                            (Some (func_v join)) w)
               = Return (bound "join" join)).
  { vm_compute. reflexivity. }
  destruct (DefineFunction_then_callback w w' 1%positive
              (context_at w 1%positive) "join" (Some (func_v join))
              (bound "join" join)) as (_ & _ & _ & Hcb & _).
  - apply context_at_lookup. vm_compute. reflexivity.
  - exact (returned_Ok _ _ Hr).
  - apply Hcb. vm_compute. reflexivity.
Defined.

(** [DefineObject_without_proxy] on the host's context. *)
Lemma DefineObject_without_proxy_witness :
  let w := state running in
  exists o w', DefineObject 1%positive "ns" None w = Ok o w'
               /\ objects w !! o = None.
Proof.
  intros w.
  destruct (DefineObject_without_proxy w 1%positive (context_at w 1%positive)
              "ns") as (o & w' & Hd & Hn & _).
  - apply context_at_lookup. vm_compute. reflexivity.
  - vm_compute. reflexivity.
  - exists o, w'. split; assumption.
Defined.

(** [Object_DefineFunction_then_callback] on the object [o]. *)
Lemma Object_DefineFunction_then_callback_witness :
  let w := state with_person in
  let w' := state (Object_DefineFunction 1%positive "pair"
                     (Some (func_v pair)) w) in
  Func_Name (bound "pair" pair) = "pair"
  /\ JSAPI_DefineFunction (ptr (context_at w 1%positive))
       (Object_id (object_at w 1%positive)) "pair" (engine w)
     = (JSAPI_OK, engine w').
Proof.
  intros w w'.
  assert (Ho : objects w !! 1%positive = Some (object_at w 1%positive)).
  { apply object_at_lookup. vm_compute. reflexivity. }
  assert (Hcx : Object_cx (object_at w 1%positive) = 1%positive).
  { vm_compute. reflexivity. }
  assert (Hh : heap w !! Object_cx (object_at w 1%positive)
               = Some (context_at w 1%positive)).
  { rewrite Hcx. apply context_at_lookup. vm_compute. reflexivity. }
  assert (Hr : returned (Object_DefineFunction 1%positive "pair"
                            (Some (func_v pair)) w)
               = Return (bound "pair" pair)).
  { vm_compute. reflexivity. }
  destruct (Object_DefineFunction_then_callback w w' 1%positive
              (object_at w 1%positive) (context_at w 1%positive) "pair"
              (Some (func_v pair)) (bound "pair" pair) Ho Hh
              (returned_Ok _ _ Hr)) as (Hn & Hst & _).
  split; [exact Hn|exact Hst].
Defined.

(** [defineObject_binds_the_fields] on the [Person] behind a pointer. *)
Lemma defineObject_binds_the_fields_witness :
  let w := state running in
  let p := ptr_Person_v (Some 1%positive) in
  let r := defineObject 1%positive "o" (Some p) 0 w in
  exists s ob,
    Indirect (Some p) = Some s
    /\ objects (state r) !! 1%positive = Some ob
    /\ Object_proxy ob = Some p.
Proof.
  intros w p r.
  assert (Hr : returned r = Return 1%positive).
  { vm_compute. reflexivity. }
  destruct (defineObject_binds_the_fields w (state r) 1%positive 1%positive
              "o" p 0 (returned_Ok _ _ Hr)) as (s & ob & Hi & _ & Ho & Hp & _).
  exists s, ob. repeat split; assumption.
Defined.

(** [set_then_get] on [Age] set to 25. *)
Lemma set_then_get_witness :
  get (<[3%positive := converted (float64_v 25) int_t]> (mem start)) Age
  = Return ("25", None).
Proof.
  exact (proj1 (proj2 (set_then_get (mem start) Age "25"
                         (Some (float64_v 25)) (converted (float64_v 25) int_t)
                         eq_refl eq_refl eq_refl))).
Defined.

(** [unsettable_field] on a struct bound by value. *)
Lemma unsettable_field_witness :
  (mem start = mem start
   /\ exists err, ("", Some (not_settable "Title")) = ("", Some err))
  /\ get (mem start) prototype
     = Panic "reflect.Value.Interface: cannot return value obtained from unexported field or method".
Proof.
  split.
  - exact (proj1 (unsettable_field (mem start) Title) eq_refl "true"
             ("", Some (not_settable "Title")) (mem start) eq_refl).
  - exact (proj2 (unsettable_field (mem start) prototype) eq_refl).
Defined.

(** [setprop_then_getprop] on [o.Age = 25]. *)
Lemma setprop_then_getprop_witness :
  let w := state with_person in
  let w' := state (setprop 1 4 "Age" "25" w) in
  getprop 1 4 "Age" w' = Ok (1%Z, "25") w'.
Proof.
  intros w w'.
  assert (Hr : returned (setprop 1 4 "Age" "25" w) = Return (1%Z, "25")).
  { vm_compute. reflexivity. }
  exact (setprop_then_getprop w w' 1 4 "Age" "25" "25" (returned_Ok _ _ Hr)).
Defined.

(** [cast_result] on a boolean cast to [int]. *)
Lemma cast_result_witness :
  exists r', Some (bool_v true) = Some r'
    /\ reflect.AssignableTo (reflect.Value_Type r') int_t = false
    /\ ErrorString "cannot cast bool to int"
       = cannot_cast (reflect.Type_Kind (reflect.Value_Type r'))
                     (reflect.Type_Kind int_t).
Proof.
  exact (cast_result (Some (bool_v true)) (Some (bool_v true)) int_t
           (Some (ErrorString "cannot cast bool to int")) eq_refl).
Defined.

(** [NewFunc_accepts] on [add]. *)
Lemma NewFunc_accepts_witness :
  NewFunc (Some (func_v add)) = Return (bound "[anon]" add).
Proof.
  apply (proj1 (NewFunc_accepts (H := R) (func_v add))).
  split; [reflexivity|].
  repeat constructor.
Defined.

(** [call_runs_the_function] on the variadic [join] with two arguments. *)
Lemma call_runs_the_function_witness :
  exists xs,
    [Some (float64_v 1); Some (float64_v 2)] = map Some xs
    /\ call (bound "join" join) "[1,2]"
       = (outvals ← reflect.Value_run (func_v join) xs;
          Return (encode_outvals outvals)).
Proof.
  destruct (call_runs_the_function (H := R) (J := J) (bound "join" join) "[1,2]"
              [Some (float64_v 1); Some (float64_v 2)]
              [Some (float64_v 1); Some (float64_v 2)] (func_v join)
              eq_refl eq_refl eq_refl eq_refl) as (xs & Hxs & _ & _ & Hc).
  - right. split; [reflexivity|]. split; [vm_compute; discriminate|].
    exists slice_t, interface_t. split; reflexivity.
  - exists xs. split; assumption.
Defined.

(** [Eval_results] on a script that evaluates to [true]. *)
Lemma Eval_results_witness :
  let w := state running in
  returned (Eval 1%positive "1+1" w) = Return (None, Some (bool_v true)).
Proof.
  intros w.
  destruct (Eval_results w 1%positive (context_at w 1%positive) "1+1")
    as [Hok _].
  - apply context_at_lookup. vm_compute. reflexivity.
  - vm_compute. reflexivity.
  - vm_compute. reflexivity.
  - rewrite (Hok "true" [NewContext_call; DefineFunction_call 1 0 "add";
                         DefineFunction_call 1 0 "raise"; Eval_call 1 "1+1"]).
    + reflexivity.
    + vm_compute. reflexivity.
Defined.

(** [callbacks_without_target] on a handle no context was made with. *)
Lemma callbacks_without_target_witness :
  let w := state running in
  callback 9 9 "add" "[1,2]" w
  = Ok (0%Z, "attempt to use context after destroyed") w.
Proof.
  intros w.
  apply (proj1 (callbacks_without_target w 9 9 "add" "[1,2]")).
  vm_compute. reflexivity.
Defined.

(** [Object_DefineObject_without_proxy] on the object [o]. *)
Lemma Object_DefineObject_without_proxy_witness :
  let w := state with_person in
  exists o w', Object_DefineObject 1%positive "child" None w = Ok o w'
               /\ o <> 1%positive.
Proof.
  intros w.
  assert (Ho : objects w !! 1%positive = Some (object_at w 1%positive)).
  { apply object_at_lookup. vm_compute. reflexivity. }
  assert (Hcx : Object_cx (object_at w 1%positive) = 1%positive).
  { vm_compute. reflexivity. }
  assert (Hh : heap w !! Object_cx (object_at w 1%positive)
               = Some (context_at w 1%positive)).
  { rewrite Hcx. apply context_at_lookup. vm_compute. reflexivity. }
  destruct (Object_DefineObject_without_proxy w 1%positive
              (object_at w 1%positive) (context_at w 1%positive) "child"
              Ho Hh) as (o & w' & Hd & Hne & _).
  - vm_compute. reflexivity.
  - exists o, w'. split; assumption.
Defined.
